(** * Rush operation metadata, plugins and scheduling: a shallow embedding

    The development follows the TypeScript sources:
    - [libraries/rush-lib/src/logic/operations/OperationMetadataManager.ts]
    - the [PnpmSyncCopyOperationPlugin]
    - Heft's [ProjectValidatorPlugin]

    JavaScript strings are sequences of UTF-16 code units, [number]s are
    IEEE-754 binary64 values, a promise that rejects is a computation that
    returns an error, and the file system and the terminals are an explicit
    world threaded through every operation. *)

From Stdlib Require Import Floats.
From stdpp Require Import gmap strings list fin_maps relations.

Set Default Proof Using "Type".

(** Membership in an explicit list. *)
Ltac in_list := rewrite ?elem_of_app, ?elem_of_cons; auto 10.

(** One goal per element of the explicit list that [H] speaks of. *)
Ltac elem_cases H :=
  repeat (apply elem_of_cons in H as [H|H]);
  try (by apply elem_of_nil in H); try discriminate H; try subst.

(** ** JavaScript strings *)

Module JsString.

(** A UTF-16 code unit, and a string of them. *)
Abbreviation char16 := N (only parsing).
Abbreviation jsstring := (list N) (only parsing).

(** An ASCII literal as a JavaScript string. *)
Definition js (s : string) : jsstring :=
  map Ascii.N_of_ascii (String.list_ascii_of_string s).

(** [s.replace(/C/g, r)] for a pattern [C] that matches exactly one code
    unit (a literal character or a character class, no [u] flag): every
    matching code unit is replaced by [r], the others are kept. *)
Definition replace_all (C : char16 → bool) (r : jsstring) (s : jsstring)
  : jsstring :=
  flat_map (λ c, if C c then r else [c]) s.

(** [s.split(sep)] for a one-code-unit separator: never empty, and no piece
    contains the separator. *)
Fixpoint split (sep : char16) (s : jsstring) : list jsstring :=
  match s with
  | [] => [[]]
  | c :: s' =>
      if N.eqb c sep then [] :: split sep s'
      else match split sep s' with
           | [] => [[c]]
           | piece :: pieces => (c :: piece) :: pieces
           end
  end.

(** [a.join(sep)]. *)
Fixpoint join (sep : jsstring) (a : list jsstring) : jsstring :=
  match a with
  | [] => []
  | [x] => x
  | x :: rest => x ++ sep ++ join sep rest
  end.

(** Truthiness of a string: the empty string is the only falsy one. *)
Definition truthy (s : jsstring) : bool :=
  match s with [] => false | _ => true end.

Definition in_range (lo hi c : char16) : bool :=
  (N.leb lo c && N.leb c hi)%bool.

(** The character class [a-zA-Z0-9]. *)
Definition is_alnum (c : char16) : bool :=
  (in_range 97%N 122%N c || in_range 65%N 90%N c || in_range 48%N 57%N c)%bool.

Definition space : char16 := 32%N.
Definition underscore : char16 := 95%N.
Definition newline : char16 := 10%N.
Definition dquote : char16 := 34%N.

(** [===] on strings. *)
Definition str_eqb (a b : jsstring) : bool := bool_decide (a = b).

End JsString.

Import JsString.

(** ** Errors, promises and the world *)

Module Node.

(** The [code] of a Node.js [ErrnoException]. *)
Inductive ErrnoCode := ENOENT | ENOTDIR | EISDIR | EACCES.

(** What a JavaScript [throw] carries. *)
Inductive JsError :=
| ErrnoException (code : ErrnoCode) (path : jsstring)
| SyntaxError
| TypeError
| InternalError (inner : JsError)
| Error (message : jsstring).

(** The outcome of an awaited promise. *)
Inductive Completion (A : Type) :=
| Resolved (value : A)
| Rejected (reason : JsError).
Arguments Resolved {A} value.
Arguments Rejected {A} reason.

(** [fs.Dirent], as far as the plugins read it. *)
Record FolderItem := { name : jsstring; isDirectory : bool }.

(** A path holds a regular file or a folder with its listing. *)
Inductive Entry :=
| File (content : jsstring)
| Folder (items : list FolderItem).

Definition isFolder (e : option Entry) : bool :=
  match e with Some (Folder _) => true | _ => false end.

Inductive TerminalProviderSeverity := log | warning | error | verbose | debug.

End Node.

Import Node.

(** [IOperationStateJson] of OperationStateFile.ts, as [saveAsync] builds it. *)
Module IOperationStateJson.
Record t := {
  nonCachedDurationMs : float;
  cobuildContextId : option jsstring;
  cobuildRunnerId : option jsstring
}.
End IOperationStateJson.

(** [ITerminalChunk] of @rushstack/terminal: [kind] is the string value of
    the [TerminalChunkKind] enum member. *)
Module ITerminalChunk.
Record t := { kind : jsstring; text : jsstring }.
End ITerminalChunk.

(** The world an operation runs in: the files by path, what the terminal
    provider and the terminal were asked to write (oldest first), and the
    state cached in the manager's [stateFile] object. *)
Record World := {
  files : gmap jsstring Entry;
  terminalProviderWrites : list (jsstring * TerminalProviderSeverity);
  terminalWrites : list jsstring;
  stateFile_state : option IOperationStateJson.t
}.

(** An async function: it reads and updates the world, and resolves or
    rejects. *)
Definition Async (A : Type) : Type := World → Completion A * World.

#[export] Instance Async_ret : MRet Async := λ A a w, (Resolved a, w).

#[export] Instance Async_bind : MBind Async := λ A B k m w,
  match m w with
  | (Resolved a, w') => k a w'
  | (Rejected e, w') => (Rejected e, w')
  end.

Definition throw {A} (e : JsError) : Async A := λ w, (Rejected e, w).

(** [try { body } catch (e) { handler(e) }] *)
Definition try_catch {A} (body : Async A) (handler : JsError → Async A)
  : Async A := λ w,
  match body w with
  | (Rejected e, w') => handler e w'
  | r => r
  end.

(** Lifts an outcome that needs no world. *)
Definition settle {A} (c : Completion A) : Async A := λ w, (c, w).

Definition set_files (f : gmap jsstring Entry) (w : World) : World :=
  {| files := f;
     terminalProviderWrites := terminalProviderWrites w;
     terminalWrites := terminalWrites w;
     stateFile_state := stateFile_state w |}.

Definition set_state (s : option IOperationStateJson.t) (w : World) : World :=
  {| files := files w;
     terminalProviderWrites := terminalProviderWrites w;
     terminalWrites := terminalWrites w;
     stateFile_state := s |}.

(** ** @rushstack/node-core-library: FileSystem and Async

    The library is imported by all three sources and is not among them; its
    operations act on the flat store of [World]. *)

Module FileSystem.

(** Modelled from the spec: FileSystem.isNotExistError is missing; it
    recognizes the errors of a missing file or folder, the [ErrnoException]s
    whose code is ENOENT or ENOTDIR. *)
Definition isNotExistError (e : JsError) : bool :=
  match e with
  | ErrnoException ENOENT _ | ErrnoException ENOTDIR _ => true
  | _ => false
  end.

(** Modelled from the spec: FileSystem.readFileAsync is missing; a missing
    file is a not-exist error, a folder in its place another error. *)
Definition readFileAsync (path : jsstring) : Async jsstring := λ w,
  match files w !! path with
  | None => (Rejected (ErrnoException ENOENT path), w)
  | Some (Folder _) => (Rejected (ErrnoException EISDIR path), w)
  | Some (File content) => (Resolved content, w)
  end.

Record IFileSystemCopyFileOptions := {
  sourcePath : jsstring;
  destinationPath : jsstring
}.

(** Modelled from the spec: FileSystem.copyFileAsync is missing; a missing
    source is a not-exist error; the source must be a file; an existing
    destination file is overwritten, a folder is not. *)
Definition copyFileAsync (options : IFileSystemCopyFileOptions) : Async unit :=
  λ w,
  match files w !! sourcePath options with
  | None => (Rejected (ErrnoException ENOENT (sourcePath options)), w)
  | Some (Folder _) =>
      (Rejected (Error (js "The specified path refers to a folder")), w)
  | Some (File content) =>
      if isFolder (files w !! destinationPath options)
      then (Rejected (Error (js "Cannot overwrite directory")), w)
      else (Resolved (),
            set_files (<[destinationPath options := File content]> (files w)) w)
  end.

(** Modelled from the spec: FileSystem.exists is missing. *)
Definition exists_ (path : jsstring) (fs : gmap jsstring Entry) : bool :=
  bool_decide (is_Some (fs !! path)).

(** Modelled from the spec: FileSystem.readFolderItemsAsync is missing; a
    missing folder is a not-exist error (ENOENT, or ENOTDIR for a file in its
    place). *)
Definition readFolderItems (path : jsstring) (fs : gmap jsstring Entry)
  : Completion (list FolderItem) :=
  match fs !! path with
  | None => Rejected (ErrnoException ENOENT path)
  | Some (File _) => Rejected (ErrnoException ENOTDIR path)
  | Some (Folder items) => Resolved items
  end.

End FileSystem.

(** Modelled from the spec: Async.forEachAsync is missing; the callbacks
    run in array order, and the first rejection is the result. *)
Fixpoint forEachAsync {A} (array : list A) (callback : A → Async unit)
  : Async unit :=
  match array with
  | [] => mret ()
  | x :: rest => callback x ;; forEachAsync rest callback
  end.

(** ** What the sources import from other modules and packages *)

Class Externals := {
  (** [RushConstants.projectRushFolderName] and [rushTempFolderName] *)
  projectRushFolderName : jsstring;
  rushTempFolderName : jsstring;
  (** [TerminalChunkKind.Stderr] *)
  TerminalChunkKind_Stderr : jsstring;
  (** [JSON.parse] of one log-chunk line, destructured as [{ kind, text }] *)
  JSON_parse : jsstring → Completion ITerminalChunk.t;
  (** the text [JsonFile.saveAsync] writes for a state, and its reading by
      [JsonFile.loadAsync] *)
  JsonFile_stringify : IOperationStateJson.t → jsstring;
  JsonFile_parse : jsstring → Completion IOperationStateJson.t;
  (** the pieces in which a read stream hands out a file's content *)
  readStream_chunks : jsstring → list jsstring
}.

(** ** OperationStateFile.ts

    The class is imported by OperationMetadataManager.ts and is not among
    the sources. *)

Module OperationStateFile.

Record t := { filepath : jsstring; relativeFilepath : jsstring }.

(** Modelled from the spec: OperationStateFile's constructor is missing; the
    durable per-operation record is kept as state.json in the metadata
    folder, beside the logs (the path that [relativeFilepaths] documents). *)
Definition new (projectFolder metadataFolder : jsstring) : t :=
  let relativeFilepath := metadataFolder ++ js "/" ++ js "state.json" in
  {| filepath := projectFolder ++ js "/" ++ relativeFilepath;
     relativeFilepath := relativeFilepath |}.

Section ops.
Context `{Externals}.

(** Modelled from the spec: OperationStateFile.writeAsync is missing; the
    metadata persistence sink durably stores the record: the JSON text is
    saved at [filepath] (the folder is created on demand) and the state is
    cached in the object. *)
Definition writeAsync (self : t) (json : IOperationStateJson.t) : Async unit :=
  λ w,
  if isFolder (files w !! filepath self)
  then (Rejected (ErrnoException EISDIR (filepath self)), w)
  else (Resolved (),
        set_state (Some json)
          (set_files (<[filepath self := File (JsonFile_stringify json)]> (files w)) w)).

(** Modelled from the spec: OperationStateFile.tryRestoreAsync is missing;
    the record is restored on a rerun: a missing file is an undefined state
    (nothing to restore), any other failure is rethrown as an internal
    error. *)
Definition tryRestoreAsync (self : t) : Async (option IOperationStateJson.t) :=
  λ w,
  match files w !! filepath self with
  | None => (Resolved None, set_state None w)
  | Some (Folder _) =>
      (Rejected (InternalError (ErrnoException EISDIR (filepath self))), w)
  | Some (File content) =>
      match JsonFile_parse content with
      | Resolved json => (Resolved (Some json), set_state (Some json) w)
      | Rejected e => (Rejected (InternalError e), w)
      end
  end.

End ops.
End OperationStateFile.

(** ** OperationMetadataManager.ts *)

(** [name.replace(/ /g, '').replace(/[^a-zA-Z0-9]/g, '_')] *)
Definition normalizeNameForLogFilenameIdentifiers (name : jsstring) : jsstring :=
  replace_all (λ c, negb (is_alnum c)) (js "_")
    (replace_all (λ c, N.eqb c space) (js "") name).

Module IOperationMetaData.
Record t := {
  durationInSeconds : float;
  logPath : jsstring;
  errorLogPath : jsstring;
  logChunksPath : jsstring;
  cobuildContextId : option jsstring;
  cobuildRunnerId : option jsstring
}.
End IOperationMetaData.

(** [IOperationMetadataManagerOptions], by the fields the constructor reads:
    [rushProject.projectFolder], [phase.logFilenameIdentifier] and
    [operation.name]. *)
Module IOperationMetadataManagerOptions.
Record t := {
  projectFolder : jsstring;
  phase_logFilenameIdentifier : jsstring;
  operation_name : option jsstring
}.
End IOperationMetadataManagerOptions.

Module OperationMetadataManager.

Import FileSystem.

Record t := {
  stateFile : OperationStateFile.t;
  logFilenameIdentifier : jsstring;
  _metadataFolder : jsstring;
  _logPath : jsstring;
  _errorLogPath : jsstring;
  _logChunksPath : jsstring;
  _relativeLogPath : jsstring;
  _relativeLogChunksPath : jsstring;
  _relativeErrorLogPath : jsstring
}.

Section manager.
Context `{Externals}.

(** [operation.name ? normalize(operation.name) : phase.logFilenameIdentifier]:
    an undefined or empty name is falsy. *)
Definition logFilenameIdentifierOf (options : IOperationMetadataManagerOptions.t)
  : jsstring :=
  match IOperationMetadataManagerOptions.operation_name options with
  | Some name =>
      if truthy name then normalizeNameForLogFilenameIdentifiers name
      else IOperationMetadataManagerOptions.phase_logFilenameIdentifier options
  | None => IOperationMetadataManagerOptions.phase_logFilenameIdentifier options
  end.

Definition new (options : IOperationMetadataManagerOptions.t) : t :=
  let projectFolder := IOperationMetadataManagerOptions.projectFolder options in
  let logFilenameIdentifier := logFilenameIdentifierOf options in
  let metadataFolder :=
    projectRushFolderName ++ js "/" ++ rushTempFolderName ++ js "/operation/"
      ++ logFilenameIdentifier in
  let relativeLogPath := metadataFolder ++ js "/all.log" in
  let relativeErrorLogPath := metadataFolder ++ js "/error.log" in
  let relativeLogChunksPath := metadataFolder ++ js "/log-chunks.jsonl" in
  {| stateFile := OperationStateFile.new projectFolder metadataFolder;
     logFilenameIdentifier := logFilenameIdentifier;
     _metadataFolder := metadataFolder;
     _logPath := projectFolder ++ js "/" ++ relativeLogPath;
     _errorLogPath := projectFolder ++ js "/" ++ relativeErrorLogPath;
     _logChunksPath := projectFolder ++ js "/" ++ relativeLogChunksPath;
     _relativeLogPath := relativeLogPath;
     _relativeLogChunksPath := relativeLogChunksPath;
     _relativeErrorLogPath := relativeErrorLogPath |}.

Definition relativeFilepaths (self : t) : list jsstring :=
  [ OperationStateFile.relativeFilepath (stateFile self);
    _relativeLogPath self;
    _relativeErrorLogPath self;
    _relativeLogChunksPath self ].

(** The state [saveAsync] hands to the state file. *)
Definition stateOf (md : IOperationMetaData.t) : IOperationStateJson.t :=
  {| IOperationStateJson.nonCachedDurationMs :=
       (IOperationMetaData.durationInSeconds md * 1000)%float;
     IOperationStateJson.cobuildContextId := IOperationMetaData.cobuildContextId md;
     IOperationStateJson.cobuildRunnerId := IOperationMetaData.cobuildRunnerId md |}.

Definition copyFileOptionsOf (self : t) (md : IOperationMetaData.t)
  : list IFileSystemCopyFileOptions :=
  [ {| sourcePath := IOperationMetaData.logPath md;
       destinationPath := _logPath self |};
    {| sourcePath := IOperationMetaData.errorLogPath md;
       destinationPath := _errorLogPath self |};
    {| sourcePath := IOperationMetaData.logChunksPath md;
       destinationPath := _logChunksPath self |} ].

(** The callback of the copy loop: a copy whose source does not exist is
    skipped, any other failure is thrown again. *)
Definition tryCopy (options : IFileSystemCopyFileOptions) : Async unit :=
  try_catch (copyFileAsync options)
    (λ e, if negb (isNotExistError e) then throw e else mret ()).

Definition saveAsync (self : t) (md : IOperationMetaData.t) : Async unit :=
  let state := stateOf md in
  OperationStateFile.writeAsync (stateFile self) state ;;
  forEachAsync (copyFileOptionsOf self md) tryCopy.

(** [terminalProvider.write(text, severity)] *)
Definition terminalProvider_write (text : jsstring)
  (severity : TerminalProviderSeverity) : Async unit := λ w,
  (Resolved (),
   {| files := files w;
      terminalProviderWrites := terminalProviderWrites w ++ [(text, severity)];
      terminalWrites := terminalWrites w;
      stateFile_state := stateFile_state w |}).

(** [terminal.write(data)] *)
Definition terminal_write (data : jsstring) : Async unit := λ w,
  (Resolved (),
   {| files := files w;
      terminalProviderWrites := terminalProviderWrites w;
      terminalWrites := terminalWrites w ++ [data];
      stateFile_state := stateFile_state w |}).

(** The first loop of [tryRestoreAsync]: every truthy line is parsed and
    pushed onto [chunks]; the first line that fails to parse throws. *)
Fixpoint parseChunks (lines : list jsstring) (chunks : list ITerminalChunk.t)
  : Completion (list ITerminalChunk.t) :=
  match lines with
  | [] => Resolved chunks
  | chunk :: rest =>
      if truthy chunk then
        match JSON_parse chunk with
        | Resolved c => parseChunks rest (chunks ++ [c])
        | Rejected e => Rejected e
        end
      else parseChunks rest chunks
  end.

(** The body of the second loop. *)
Definition replayChunk (c : ITerminalChunk.t) : Async unit :=
  if str_eqb (ITerminalChunk.kind c) TerminalChunkKind_Stderr
  then terminalProvider_write (ITerminalChunk.text c) error
  else terminalProvider_write (ITerminalChunk.text c) log.

(** Node's [fs.createReadStream(path)] read to its end: the data pieces, or
    the error that the iteration throws. *)
Definition createReadStream (path : jsstring) : Async (list jsstring) := λ w,
  match files w !! path with
  | None => (Rejected (ErrnoException ENOENT path), w)
  | Some (Folder _) => (Rejected (ErrnoException EISDIR path), w)
  | Some (File content) => (Resolved (readStream_chunks content), w)
  end.

Definition restoreFromLogFile (path : jsstring) : Async unit :=
  try_catch
    (pieces ← createReadStream path;
     forEachAsync pieces terminal_write)
    (λ logReadStreamError,
       if negb (isNotExistError logReadStreamError)
       then throw logReadStreamError else mret ()).

Definition tryRestoreAsync (self : t) (errorLogPath : jsstring) : Async unit :=
  OperationStateFile.tryRestoreAsync (stateFile self) ;;
  try_catch
    (rawLogChunks ← readFileAsync (_logChunksPath self);
     chunks ← settle (parseChunks (split newline rawLogChunks) []);
     forEachAsync chunks replayChunk)
    (λ e, if isNotExistError e
          then restoreFromLogFile (_logPath self)
          else throw e) ;;
  try_catch
    (copyFileAsync {| sourcePath := _errorLogPath self;
                      destinationPath := errorLogPath |})
    (λ e, if negb (isNotExistError e) then throw e else mret ()).

End manager.

(** The severity at which a chunk is to be replayed. *)
Definition severityOf `{Externals} (c : ITerminalChunk.t)
  : TerminalProviderSeverity :=
  if decide (ITerminalChunk.kind c = TerminalChunkKind_Stderr) then error else log.

(** The operation's metadata folder, as an absolute path. *)
Definition metadataFolderPath `{Externals}
  (options : IOperationMetadataManagerOptions.t) : jsstring :=
  IOperationMetadataManagerOptions.projectFolder options ++ js "/"
    ++ projectRushFolderName ++ js "/" ++ rushTempFolderName ++ js "/operation/"
    ++ logFilenameIdentifierOf options.

(** The outcome of copying [source] to [destination] between two worlds: the
    destination holds the source file's content, or is left as it was when
    there is no source file. *)
Definition copiedOrSkipped (before after : World) (source destination : jsstring)
  : Prop :=
  match files before !! source with
  | Some (File content) => files after !! destination = Some (File content)
  | _ => files after !! destination = files before !! destination
  end.

End OperationMetadataManager.

(** ** OperationStatus.ts *)

(** Modelled from the spec: the OperationStatus enum is imported by the
    plugin and is not among the sources; its members are the states of the
    operation execution record's state machine. *)
Inductive OperationStatus :=
| Ready | Queued | Executing
| Success | SuccessWithWarning | FromCache | NoOp | Skipped
| Blocked | Failure | Cancelled.

#[export] Instance OperationStatus_eq_dec : EqDecision OperationStatus.
Proof. solve_decision. Defined.

(** ** PnpmSyncCopyOperationPlugin.ts *)

Module PnpmSyncCopyOperationPlugin.

(** [OperationExecutionRecord], by the fields the hook destructures:
    [status] and [operation.associatedProject] (by its [projectFolder]). *)
Record OperationExecutionRecord := {
  status : OperationStatus;
  associatedProject : option jsstring
}.

(** What the hook does to the outside, in order. *)
Inductive Effect :=
| FileSystem_exists (path : jsstring)
| ImportPackageExtractor
| PnpmSyncCopyAsync (pnpmSyncJsonPath : jsstring).

Definition pnpmSyncJsonPathOf (projectFolder : jsstring) : jsstring :=
  projectFolder ++ js "/node_modules/.pnpm-sync.json".

(** The tap on [hooks.afterExecuteOperation]. *)
Definition afterExecuteOperation (record : OperationExecutionRecord)
  (fs : gmap jsstring Entry) : list Effect :=
  if bool_decide (status record = Skipped)
     || bool_decide (status record = FromCache)
     || bool_decide (status record = NoOp)
  then []
  else
    match associatedProject record with
    | Some projectFolder =>
        let pnpmSyncJsonPath := pnpmSyncJsonPathOf projectFolder in
        FileSystem_exists pnpmSyncJsonPath ::
        (if FileSystem.exists_ pnpmSyncJsonPath fs
         then [ImportPackageExtractor; PnpmSyncCopyAsync pnpmSyncJsonPath]
         else [])
    | None => []
    end.

(** What [logMessageCallback] writes. *)
Inductive TerminalLine :=
| ErrorLine (message : jsstring)
| WarningLine (message : jsstring)
| VerboseLine (message : jsstring)
| Line (message : jsstring).

Definition logMessageCallback (_isVerbose : bool) (messageKind message : jsstring)
  : list TerminalLine :=
  if str_eqb messageKind (js "error") then [ErrorLine message]
  else if str_eqb messageKind (js "warning") then [WarningLine message]
  else if str_eqb messageKind (js "verbose")
       then (if _isVerbose then [VerboseLine message] else [])
  else [Line message].

(** A question to the file system. *)
Definition isQuery (effect : Effect) : bool :=
  match effect with FileSystem_exists _ => true | _ => false end.

(** The text of a terminal line. *)
Definition messageOf (line : TerminalLine) : jsstring :=
  match line with
  | ErrorLine message | WarningLine message | VerboseLine message
  | Line message => message
  end.

End PnpmSyncCopyOperationPlugin.

(** ** ProjectValidatorPlugin.ts (Heft) *)

Module ProjectValidatorPlugin.

Section plugin.
(** Heft's [Constants.buildCacheFolderName], [projectHeftFolderName] and
    [projectConfigFolderName], imported from ../utilities/Constants. *)
Variables buildCacheFolderName projectHeftFolderName projectConfigFolderName
  : jsstring.

Definition ALLOWED_HEFT_DATA_FOLDER_FILES : gset jsstring := ∅.

Definition ALLOWED_HEFT_DATA_FOLDER_SUBFOLDERS : gset jsstring :=
  {[ buildCacheFolderName ]}.

(** One turn of the loop over the folder's items. *)
Definition scanItem (disallowedItemNames : list jsstring) (folderItem : FolderItem)
  : list jsstring :=
  let itemName := name folderItem in
  if isDirectory folderItem then
    if negb (bool_decide (itemName ∈ ALLOWED_HEFT_DATA_FOLDER_SUBFOLDERS))
    then disallowedItemNames ++ [[dquote] ++ itemName ++ js "/" ++ [dquote]]
    else disallowedItemNames
  else
    if negb (bool_decide (itemName ∈ ALLOWED_HEFT_DATA_FOLDER_FILES))
    then disallowedItemNames ++ [[dquote] ++ itemName ++ [dquote]]
    else disallowedItemNames.

Definition warningMessage (disallowedItemNames : list jsstring) : jsstring :=
  js "Found unexpected items in the " ++ [dquote] ++ projectHeftFolderName
    ++ [dquote] ++ js " folder: " ++ join (js ", ") disallowedItemNames
    ++ js ". If any of these are config files, they should go in the project's "
    ++ [dquote] ++ projectConfigFolderName ++ [dquote] ++ js " folder.".

(** The outcome of the scan and the warnings given to [logger.emitWarning]. *)
Definition _scanHeftDataFolderAsync (projectHeftDataFolder : jsstring)
  (fs : gmap jsstring Entry) : Completion unit * list jsstring :=
  match FileSystem.readFolderItems projectHeftDataFolder fs with
  | Rejected e =>
      if negb (FileSystem.isNotExistError e) then (Rejected e, [])
      else (Resolved (), [])
  | Resolved heftDataFolderContents =>
      let disallowedItemNames := foldl scanItem [] heftDataFolderContents in
      if Nat.ltb 0 (length disallowedItemNames)
      then (Resolved (), [warningMessage disallowedItemNames])
      else (Resolved (), [])
  end.

(** [names.map((packageName) => `"${packageName}"`).join(' or ')] *)
Definition quotedCandidates (missingPluginCandidatePackageNames : list jsstring)
  : jsstring :=
  join (js " or ")
    (map (λ packageName, [dquote] ++ packageName ++ [dquote])
       missingPluginCandidatePackageNames).

(** The tail that both missing-plugin warnings share. *)
Definition howToFix (missingPluginCandidatePackageNames : list jsstring)
  (missingPluginDocumentationUrl : jsstring) : jsstring :=
  quotedCandidates missingPluginCandidatePackageNames ++ js " "
    ++ js "to your package.json " ++ [dquote] ++ js "devDependencies" ++ [dquote]
    ++ js " and use " ++ [dquote] ++ js "config/heft.json" ++ [dquote]
    ++ js " to load it. For details, "
    ++ js "see Heft's UPGRADING.md notes and this article: "
    ++ missingPluginDocumentationUrl.

Definition configFileWarning (configFilePath : jsstring)
  (missingPluginCandidatePackageNames : list jsstring)
  (missingPluginDocumentationUrl : jsstring) : jsstring :=
  js "The configuration file " ++ [dquote] ++ configFilePath ++ [dquote]
    ++ js " exists in your project, but the associated Heft plugin "
    ++ js "is not enabled. To fix this, you can add "
    ++ howToFix missingPluginCandidatePackageNames missingPluginDocumentationUrl.

(** [_checkPluginIsMissingAsync]: [taps] are the names of [hookToTap.taps];
    the result and the warnings given to [logger.emitWarning]. *)
Definition _checkPluginIsMissingAsync (missingPluginName configFilePath : jsstring)
  (missingPluginCandidatePackageNames : list jsstring)
  (missingPluginDocumentationUrl : jsstring)
  (taps : list jsstring) (fs : gmap jsstring Entry) : bool * list jsstring :=
  if existsb (λ tapName, str_eqb tapName missingPluginName) taps
  then (false, [])
  else
    if FileSystem.exists_ configFilePath fs
    then (true, [configFileWarning configFilePath
                   missingPluginCandidatePackageNames
                   missingPluginDocumentationUrl])
    else (true, []).

(** Modelled from the spec: Path.convertToSlashes of
    @rushstack/node-core-library is missing; it replaces every backslash by
    a slash. *)
Definition convertToSlashes (inputPath : jsstring) : jsstring :=
  replace_all (λ c, N.eqb c 92) (js "/") inputPath.

Definition webpackCandidates : list jsstring :=
  [js "@rushstack/heft-webpack4-plugin"; js "@rushstack/heft-webpack5-plugin"].

Definition webpackDocumentationUrl : jsstring :=
  js "https://rushstack.io/pages/heft_tasks/webpack/".

Definition generatedWebpackWarning : jsstring :=
  js "Your project appears to have a Webpack configuration generated by a plugin, "
    ++ js "but the associated Heft plugin is not enabled. To fix this, you can add "
    ++ howToFix webpackCandidates webpackDocumentationUrl.

(** The tap on [bundle.hooks.run]: [taps] are that hook's taps and
    [webpackConfiguration] tells whether [bundle.properties.webpackConfiguration]
    is truthy; the warnings, in order. *)
Definition bundleRun (buildFolder : jsstring) (taps : list jsstring)
  (webpackConfiguration : bool) (fs : gmap jsstring Entry) : list jsstring :=
  let '(missingPlugin, warnings) :=
    _checkPluginIsMissingAsync (js "WebpackPlugin")
      (convertToSlashes (buildFolder ++ js "/webpack.config.js"))
      webpackCandidates webpackDocumentationUrl taps fs in
  if missingPlugin && webpackConfiguration
  then warnings ++ [generatedWebpackWarning]
  else warnings.

(** The tap on [test.hooks.run]. *)
Definition testRun (buildFolder : jsstring) (taps : list jsstring)
  (fs : gmap jsstring Entry) : list jsstring :=
  (_checkPluginIsMissingAsync (js "JestPlugin")
     (convertToSlashes (buildFolder ++ js "/config/jest.config.json"))
     [js "@rushstack/heft-jest-plugin"]
     (js "https://rushstack.io/pages/heft_tasks/jest/") taps fs).2.

(** The tap on [build.hooks.preCompile]. *)
Definition preCompile (buildFolder : jsstring) (taps : list jsstring)
  (fs : gmap jsstring Entry) : list jsstring :=
  (_checkPluginIsMissingAsync (js "SassTypingsPlugin")
     (convertToSlashes (buildFolder ++ js "/config/sass.json"))
     [js "@rushstack/heft-sass-plugin"]
     (js "https://rushstack.io/pages/heft_tasks/sass-typings/") taps fs).2.

End plugin.
End ProjectValidatorPlugin.

(** ** module-minifier-plugin: Constants.ts *)

Module MinifierConstants.

Definition IDENTIFIER_LEADING_DIGITS : jsstring :=
  js "etnairoscdlufpm_hbgvySDIxCOwEALkMPTUFHRNBjVzGKWqQYJXZ$".

Definition IDENTIFIER_TRAILING_DIGITS : jsstring :=
  js "etnairoscdlufpm_hbg01v32y67S4985DIxCOwEALkMPTUFHRNBjVzGKWqQYJXZ$".

Definition MODULE_WRAPPER_PREFIX : jsstring := js "__MINIFY_MODULE__(".
Definition MODULE_WRAPPER_SUFFIX : jsstring := js ");".
Definition CHUNK_MODULES_TOKEN : jsstring := js "__WEBPACK_CHUNK_MODULES__".
Definition STAGE_BEFORE : Z := -100.
Definition STAGE_AFTER : Z := 100.

(** A decimal digit, and a character that may start an identifier written
    with these digits: an ASCII letter, [_] or [$]. *)
Definition is_decimal (c : char16) : bool := in_range 48%N 57%N c.

Definition is_identifier_start (c : char16) : bool :=
  (in_range 97%N 122%N c || in_range 65%N 90%N c || N.eqb c 95 || N.eqb c 36)%bool.

End MinifierConstants.

(** ** The scheduler's state machine *)

Module Scheduler.

(** Modelled from the spec: the operation graph and the scheduler are not
    among the sources. An operation is identified by its project and its
    phase. *)
Definition OperationKey : Type := jsstring * jsstring.

(** Modelled from the spec: the graph gives every operation its upstream
    dependencies; it is read-only after construction. *)
Record Graph := { dependencies : gmap OperationKey (list OperationKey) }.

Definition dependenciesOf (g : Graph) (op : OperationKey) : list OperationKey :=
  default [] (dependencies g !! op).

(** Modelled from the spec: the terminal non-blocking states, those that
    satisfy a downstream dependency. *)
Definition nonBlockingTerminal (st : OperationStatus) : bool :=
  match st with
  | Success | SuccessWithWarning | FromCache | NoOp | Skipped => true
  | _ => false
  end.

(** Modelled from the spec: a failed, cancelled or (transitively) blocked
    dependency blocks its dependents. *)
Definition blocking (st : OperationStatus) : bool :=
  match st with
  | Failure | Cancelled | Blocked => true
  | _ => false
  end.

(** Modelled from the spec: readiness is not stored, it is computed from the
    dependencies' states: an operation is eligible once every dependency has
    reached a terminal non-blocking state. *)
Definition eligible (g : Graph) (s : gmap OperationKey OperationStatus)
  (op : OperationKey) : bool :=
  forallb (λ d, from_option nonBlockingTerminal false (s !! d))
    (dependenciesOf g op).

Definition anyBlocking (g : Graph) (s : gmap OperationKey OperationStatus)
  (op : OperationKey) : bool :=
  existsb (λ d, from_option blocking false (s !! d)) (dependenciesOf g op).

(** Modelled from the spec: the worker slots in use. *)
Definition slotsInUse (s : gmap OperationKey OperationStatus) : nat :=
  length (filter (λ kv, kv.2 = Executing) (map_to_list s)).

(** Modelled from the spec: before scheduling begins an operation is Ready,
    or Skipped when it is outside the requested scope. *)
Definition initial (g : Graph) (s : gmap OperationKey OperationStatus) : Prop :=
  dom s = dom (dependencies g) ∧
  ∀ op st, s !! op = Some st → st = Ready ∨ st = Skipped.

(** Modelled from the spec: the transitions of section 4.2, taken by the
    scheduler of section 4.3 with [concurrencyLimit] worker slots. *)
Inductive step (g : Graph) (concurrencyLimit : nat)
  : relation (gmap OperationKey OperationStatus) :=
| step_select s op :
    s !! op = Some Ready →
    eligible g s op = true →
    step g concurrencyLimit s (<[op := Queued]> s)
| step_dispatch s op :
    s !! op = Some Queued →
    slotsInUse s < concurrencyLimit →
    step g concurrencyLimit s (<[op := Executing]> s)
| step_report s op outcome :
    s !! op = Some Executing →
    outcome ∈ [Success; SuccessWithWarning; Failure] →
    step g concurrencyLimit s (<[op := outcome]> s)
| step_decide s op st decision :
    s !! op = Some st → st ∈ [Ready; Queued] →
    eligible g s op = true →
    decision ∈ [FromCache; NoOp] →
    step g concurrencyLimit s (<[op := decision]> s)
| step_block s op st :
    s !! op = Some st → st ∈ [Ready; Queued] →
    anyBlocking g s op = true →
    step g concurrencyLimit s (<[op := Blocked]> s)
| step_abort s op st :
    s !! op = Some st → st ∈ [Ready; Queued] →
    step g concurrencyLimit s (<[op := Cancelled]> s).

(** The states of a run. *)
Definition reachable (g : Graph) (concurrencyLimit : nat)
  (s : gmap OperationKey OperationStatus) : Prop :=
  ∃ s0, initial g s0 ∧ rtc (step g concurrencyLimit) s0 s.

(** Every dependency of [op] is in a terminal non-blocking state. *)
Definition dependenciesSatisfied (g : Graph)
  (s : gmap OperationKey OperationStatus) (op : OperationKey) : Prop :=
  ∀ d, d ∈ dependenciesOf g op →
    ∃ st, s !! d = Some st ∧
          st ∈ [Success; SuccessWithWarning; FromCache; NoOp; Skipped].

(** What the scheduler maintains: a selected or running operation has all
    its dependencies satisfied. *)
Definition dispatchInvariant (g : Graph)
  (s : gmap OperationKey OperationStatus) : Prop :=
  ∀ op st, s !! op = Some st → st ∈ [Queued; Executing] →
    dependenciesSatisfied g s op.

End Scheduler.

(** ** The cobuild coordinator *)

Module CobuildCoordinator.

(** Modelled from the spec: the cobuild coordinator is not among the
    sources. A claim record of the shared store. *)
Inductive ClaimState := unclaimed | claimed | completed.

#[export] Instance ClaimState_eq_dec : EqDecision ClaimState.
Proof. solve_decision. Defined.

Record CobuildClaim := {
  runnerId : jsstring;
  state : ClaimState;
  expiry : N
}.

(** (contextId, operationKey) *)
Definition ClaimKey : Type := jsstring * jsstring.

Inductive ClaimResult := Claimed | AlreadyClaimed | AlreadyCompleted.

#[export] Instance ClaimResult_eq_dec : EqDecision ClaimResult.
Proof. solve_decision. Defined.

(** Modelled from the spec: a record counts until its expiry. *)
Definition unexpired (now : N) (r : CobuildClaim) : bool := N.ltb now (expiry r).

(** Modelled from the spec: one compare-and-set against the shared store: the
    claim succeeds only if no unexpired claimed or completed record exists
    for the key; the new claim expires [ttl] after [now]. *)
Definition tryClaim (ttl now : N) (key : ClaimKey) (runner : jsstring)
  (store : gmap ClaimKey CobuildClaim) : ClaimResult * gmap ClaimKey CobuildClaim :=
  let claim :=
    (Claimed,
     <[key := {| runnerId := runner; state := claimed; expiry := (now + ttl)%N |}]>
       store) in
  match store !! key with
  | Some r =>
      if unexpired now r then
        match state r with
        | claimed => (AlreadyClaimed, store)
        | completed => (AlreadyCompleted, store)
        | unclaimed => claim
        end
      else claim
  | None => claim
  end.

(** Modelled from the spec: on natural completion the holder's record
    becomes completed, which is terminal. *)
Definition complete (key : ClaimKey) (runner : jsstring)
  (store : gmap ClaimKey CobuildClaim) : gmap ClaimKey CobuildClaim :=
  match store !! key with
  | Some r =>
      if bool_decide (runnerId r = runner ∧ state r = claimed)
      then <[key := {| runnerId := runner; state := completed; expiry := expiry r |}]>
             store
      else store
  | None => store
  end.

(** What the cooperating runners do to one key, in the order in which the
    store serves them. *)
Inductive Call :=
| TryClaim (runner : jsstring) (now : N)
| Complete (runner : jsstring).

(** The results of the [tryClaim] calls, in order, and the final store. *)
Fixpoint serve (ttl : N) (key : ClaimKey) (calls : list Call)
  (store : gmap ClaimKey CobuildClaim)
  : list ClaimResult * gmap ClaimKey CobuildClaim :=
  match calls with
  | [] => ([], store)
  | TryClaim runner now :: rest =>
      let '(result, store') := tryClaim ttl now key runner store in
      let '(results, store'') := serve ttl key rest store' in
      (result :: results, store'')
  | Complete runner :: rest => serve ttl key rest (complete key runner store)
  end.

(** No unexpired claimed or completed record for the key at [now]. *)
Definition free (now : N) (key : ClaimKey) (store : gmap ClaimKey CobuildClaim)
  : Prop :=
  ∀ r, store !! key = Some r → unexpired now r = true → state r = unclaimed.

(** The [tryClaim] calls: who claims, and when. *)
Definition claims (calls : list Call) : list (jsstring * N) :=
  omap (λ c, match c with
             | TryClaim runner now => Some (runner, now)
             | Complete _ => None
             end) calls.

(** [runner] holds the key until [deadline]: the key's record is claimed
    or completed, and it is [runner]'s. *)
Definition held (key : ClaimKey) (runner : jsstring) (deadline : N)
  (store : gmap ClaimKey CobuildClaim) : Prop :=
  ∃ r, store !! key = Some r ∧ runnerId r = runner ∧ state r ≠ unclaimed ∧
       expiry r = deadline.

End CobuildCoordinator.

(** ** A concrete environment

    Stand-ins for the imported pieces, small enough to run the operations on
    example worlds. *)

Module Demo.

Definition quoted (s : jsstring) : jsstring := [dquote] ++ s ++ [dquote].

Fixpoint stripPrefix (prefix s : jsstring) : option jsstring :=
  match prefix, s with
  | [], _ => Some s
  | p :: prefix', c :: s' => if N.eqb p c then stripPrefix prefix' s' else None
  | _ :: _, [] => None
  end.

(** The text before the next double quote, and the rest from that quote on. *)
Fixpoint untilQuote (s : jsstring) : jsstring * jsstring :=
  match s with
  | [] => ([], [])
  | c :: s' =>
      if N.eqb c dquote then ([], s)
      else let '(before, rest) := untilQuote s' in (c :: before, rest)
  end.

(** Reads a line of the shape [{"kind":"K","text":"T"}] whose two strings
    need no escapes; any other line is a syntax error. *)
Definition parseChunkLine (line : jsstring) : Completion ITerminalChunk.t :=
  match stripPrefix (js "{" ++ quoted (js "kind") ++ js ":" ++ [dquote]) line with
  | Some afterKindQuote =>
      let '(kind, rest) := untilQuote afterKindQuote in
      match stripPrefix ([dquote] ++ js "," ++ quoted (js "text") ++ js ":" ++ [dquote]) rest with
      | Some afterTextQuote =>
          let '(text, tail) := untilQuote afterTextQuote in
          if str_eqb tail ([dquote] ++ js "}")
          then Resolved {| ITerminalChunk.kind := kind; ITerminalChunk.text := text |}
          else Rejected SyntaxError
      | None => Rejected SyntaxError
      end
  | None => Rejected SyntaxError
  end.

Definition chunkLine (kind text : jsstring) : jsstring :=
  js "{" ++ quoted (js "kind") ++ js ":" ++ quoted kind ++ js ","
    ++ quoted (js "text") ++ js ":" ++ quoted text ++ js "}".

(** Writes the cobuild identifiers only. *)
Definition stringifyState (state : IOperationStateJson.t) : jsstring :=
  js "{" ++ quoted (js "cobuildContextId") ++ js ":"
    ++ quoted (default [] (IOperationStateJson.cobuildContextId state)) ++ js ","
    ++ quoted (js "cobuildRunnerId") ++ js ":"
    ++ quoted (default [] (IOperationStateJson.cobuildRunnerId state)) ++ js "}".

(** Reads the empty object only. *)
Definition parseState (content : jsstring) : Completion IOperationStateJson.t :=
  if str_eqb content (js "{}")
  then Resolved {| IOperationStateJson.nonCachedDurationMs := 0%float;
                   IOperationStateJson.cobuildContextId := None;
                   IOperationStateJson.cobuildRunnerId := None |}
  else Rejected SyntaxError.

#[export] Instance externals : Externals := {|
  projectRushFolderName := js ".rush";
  rushTempFolderName := js "temp";
  TerminalChunkKind_Stderr := js "E";
  JSON_parse := parseChunkLine;
  JsonFile_stringify := stringifyState;
  JsonFile_parse := parseState;
  readStream_chunks := λ content, if truthy content then [content] else []
|}.

Definition options : IOperationMetadataManagerOptions.t :=
  {| IOperationMetadataManagerOptions.projectFolder := js "/repo/app";
     IOperationMetadataManagerOptions.phase_logFilenameIdentifier := js "_phase_build";
     IOperationMetadataManagerOptions.operation_name := Some (js "app (build)") |}.

Definition manager : OperationMetadataManager.t := OperationMetadataManager.new options.

Definition metadata : IOperationMetaData.t :=
  {| IOperationMetaData.durationInSeconds := 1.5%float;
     IOperationMetaData.logPath := js "/repo/app/rush-logs/app.build.log";
     IOperationMetaData.errorLogPath := js "/repo/app/rush-logs/app.build.error.log";
     IOperationMetaData.logChunksPath := js "/repo/app/rush-logs/app.build.chunks.jsonl";
     IOperationMetaData.cobuildContextId := Some (js "ctx");
     IOperationMetaData.cobuildRunnerId := Some (js "runner-1") |}.

Definition worldOf (fs : gmap jsstring Entry) : World :=
  {| files := fs; terminalProviderWrites := []; terminalWrites := [];
     stateFile_state := None |}.

(** A build that wrote its log and its chunks, and no error log. *)
Definition afterBuild : World :=
  worldOf (<[js "/repo/app/rush-logs/app.build.log" := File (js "building")]>
          (<[js "/repo/app/rush-logs/app.build.chunks.jsonl" :=
               File (chunkLine (js "O") (js "building") ++ [newline])]> ∅)).



(** Saved chunks of an earlier run: one line of standard output, an empty
    line, one line of standard error. *)
Definition savedChunks : World :=
  worldOf (<[js "/repo/app/.rush/temp/operation/app_build_/log-chunks.jsonl" :=
               File (chunkLine (js "O") (js "compiling") ++ [newline] ++ [newline]
                     ++ chunkLine (js "E") (js "deprecated") ++ [newline])]> ∅).

(** Only the plain log of an earlier run. *)
Definition savedLogOnly : World :=
  worldOf (<[js "/repo/app/.rush/temp/operation/app_build_/all.log" :=
               File (js "compiling")]> ∅).

End Demo.

(** ** A small run and a small race *)

(** An environment whose state reader reads back what its writer wrote (the
    cobuild identifiers), with the chunk reader of [Demo]. *)
Module RoundTripDemo.

Definition parseState (content : jsstring) : Completion IOperationStateJson.t :=
  match Demo.stripPrefix
          (js "{" ++ Demo.quoted (js "cobuildContextId") ++ js ":" ++ [dquote])
          content with
  | Some afterContextQuote =>
      let '(contextId, rest) := Demo.untilQuote afterContextQuote in
      match Demo.stripPrefix
              ([dquote] ++ js "," ++ Demo.quoted (js "cobuildRunnerId") ++ js ":"
                 ++ [dquote]) rest with
      | Some afterRunnerQuote =>
          let '(runnerId, tail) := Demo.untilQuote afterRunnerQuote in
          if str_eqb tail ([dquote] ++ js "}")
          then Resolved
                 {| IOperationStateJson.nonCachedDurationMs := 0%float;
                    IOperationStateJson.cobuildContextId := Some contextId;
                    IOperationStateJson.cobuildRunnerId := Some runnerId |}
          else Rejected SyntaxError
      | None => Rejected SyntaxError
      end
  | None => Rejected SyntaxError
  end.

Definition externals : Externals := {|
  projectRushFolderName := js ".rush";
  rushTempFolderName := js "temp";
  TerminalChunkKind_Stderr := js "E";
  JSON_parse := Demo.parseChunkLine;
  JsonFile_stringify := Demo.stringifyState;
  JsonFile_parse := parseState;
  readStream_chunks := λ content, if truthy content then [content] else []
|}.


(** The metadata of an earlier run, with its error log. *)
Definition savedWithErrorLog : World :=
  Demo.worldOf
    (<[js "/repo/app/.rush/temp/operation/app_build_/error.log" :=
         File (js "deprecated")]>
     (<[js "/repo/app/.rush/temp/operation/app_build_/all.log" :=
          File (js "compiling")]> ∅)).

(** A build that failed: its log, its chunks and its error log. *)
Definition afterFailedBuild : World :=
  Demo.worldOf
    (<[js "/repo/app/rush-logs/app.build.error.log" := File (js "boom")]>
     (<[js "/repo/app/rush-logs/app.build.log" := File (js "building")]>
      (<[js "/repo/app/rush-logs/app.build.chunks.jsonl" :=
           File (Demo.chunkLine (js "E") (js "boom") ++ [newline])]> ∅))).

End RoundTripDemo.

Module SchedulerDemo.

Import Scheduler.

Definition X : OperationKey := (js "lib", js "build").
Definition Y : OperationKey := (js "app", js "build").

(** Y depends on X. *)
Definition graph : Graph :=
  {| dependencies := <[Y := [X]]> (<[X := []]> ∅) |}.

Definition start : gmap OperationKey OperationStatus :=
  <[Y := Ready]> (<[X := Ready]> ∅).

(** X ran to success, then Y was selected and dispatched. *)
Definition dispatchedY : gmap OperationKey OperationStatus :=
  <[Y := Executing]> (<[Y := Queued]> (<[X := Success]>
    (<[X := Executing]> (<[X := Queued]> start)))).

End SchedulerDemo.

Module CobuildDemo.

Import CobuildCoordinator.

Definition key : ClaimKey := (js "ctx", js "app;build").

(** Three runners race for a fresh key at times 5, 5 and 6 with a lease of
    10; the winner completes before the last call is served. *)
Definition race : list Call :=
  [TryClaim (js "runner-1") 5; TryClaim (js "runner-2") 5;
   Complete (js "runner-1"); TryClaim (js "runner-3") 6].

End CobuildDemo.

Module PluginDemo.

(** A project with node_modules/.pnpm-sync.json, and a .heft folder that
    holds the build cache folder and a stray file. *)
Definition fs : gmap jsstring Entry :=
  <[js "/repo/app/node_modules/.pnpm-sync.json" := File (js "{}")]>
  (<[js "/repo/app/.heft" :=
       Folder [ {| name := js "build-cache"; isDirectory := true |};
                {| name := js "typescript.json"; isDirectory := false |} ]]> ∅).

Definition executed (st : OperationStatus)
  : PnpmSyncCopyOperationPlugin.OperationExecutionRecord :=
  {| PnpmSyncCopyOperationPlugin.status := st;
     PnpmSyncCopyOperationPlugin.associatedProject := Some (js "/repo/app") |}.

End PluginDemo.

(** * Properties *)

(** ** Log file name identifiers *)

Lemma replace_all_cons C r c s :
  replace_all C r (c :: s) = (if C c then r else [c]) ++ replace_all C r s.
Proof. reflexivity. Qed.

(** C9. For every input string, [normalizeNameForLogFilenameIdentifiers]
    returns a string of ASCII letters, digits and underscores only: every
    space is removed, and every other code unit outside [a-zA-Z0-9] is
    replaced by an underscore (the code units inside that class are kept, in
    order). *)
Theorem normalizeName_identifier_charset (name : jsstring) :
  Forall (λ c, is_alnum c = true ∨ c = underscore)
    (normalizeNameForLogFilenameIdentifiers name) ∧
  normalizeNameForLogFilenameIdentifiers name =
    map (λ c, if is_alnum c then c else underscore)
      (filter (λ c, c ≠ space) name).
Proof.
  unfold normalizeNameForLogFilenameIdentifiers.
  induction name as [|c name [IHall IHeq]]; [by split|].
  rewrite replace_all_cons, filter_cons.
  destruct (N.eqb_spec c space) as [->|Hc].
  - rewrite decide_False by auto. by split.
  - rewrite decide_True by done. cbn [app replace_all flat_map map].
    fold (replace_all (λ c, negb (is_alnum c)) (js "_")
            (replace_all (λ c, c =? space)%N (js "") name)).
    rewrite <- IHeq. destruct (is_alnum c) eqn:Hal; cbn.
    + split; [constructor; auto | done].
    + split; [constructor; auto | done].
Qed.

(** ** Saving the metadata *)

Section saving.
Context `{Externals}.
Import FileSystem OperationMetadataManager.

Lemma tryCopy_unfold options w :
  tryCopy options w =
    match files w !! sourcePath options with
    | None => (Resolved (), w)
    | Some (Folder _) =>
        (Rejected (Error (js "The specified path refers to a folder")), w)
    | Some (File content) =>
        if isFolder (files w !! destinationPath options)
        then (Rejected (Error (js "Cannot overwrite directory")), w)
        else (Resolved (),
              set_files (<[destinationPath options := File content]> (files w)) w)
    end.
Proof.
  unfold tryCopy, try_catch, copyFileAsync.
  destruct (files w !! sourcePath options) as [[content|items]|]; try done.
  by destruct (isFolder _).
Qed.

Lemma forEachAsync_cons {A} (x : A) rest callback w :
  forEachAsync (x :: rest) callback w =
    match callback x w with
    | (Resolved _, w') => forEachAsync rest callback w'
    | (Rejected e, w') => (Rejected e, w')
    end.
Proof. reflexivity. Qed.

(** A copy leaves every path but its destination alone, and whatever it
    does, a path holds a folder afterwards exactly if it did before. *)
Lemma tryCopy_frame options w r w' :
  tryCopy options w = (r, w') →
  (∀ p, p ≠ destinationPath options → files w' !! p = files w !! p) ∧
  (∀ p, isFolder (files w' !! p) = isFolder (files w !! p)) ∧
  terminalProviderWrites w' = terminalProviderWrites w ∧
  terminalWrites w' = terminalWrites w ∧
  stateFile_state w' = stateFile_state w.
Proof.
  rewrite tryCopy_unfold. intros Hcopy.
  destruct (files w !! sourcePath options) as [[content|items]|] eqn:Hsrc;
    [destruct (isFolder (files w !! destinationPath options)) eqn:Hdst|..];
    simplify_eq; try done.
  cbn. split_and!; try done.
  - intros p Hp. by rewrite lookup_insert_ne.
  - intros p. destruct (decide (p = destinationPath options)) as [->|Hp].
    + by rewrite lookup_insert_eq, Hdst.
    + by rewrite lookup_insert_ne.
Qed.


Lemma tryCopy_resolves options w :
  isFolder (files w !! sourcePath options) = false →
  isFolder (files w !! destinationPath options) = false →
  ∃ w', tryCopy options w = (Resolved (), w').
Proof.
  rewrite tryCopy_unfold. intros Hsrc Hdst. rewrite Hdst.
  destruct (files w !! sourcePath options) as [[content|items]|]; by eauto.
Qed.

Lemma copies_frame optionsList : ∀ w r w',
  forEachAsync optionsList tryCopy w = (r, w') →
  (∀ p, p ∉ destinationPath <$> optionsList → files w' !! p = files w !! p) ∧
  (∀ p, isFolder (files w' !! p) = isFolder (files w !! p)) ∧
  terminalProviderWrites w' = terminalProviderWrites w ∧
  terminalWrites w' = terminalWrites w ∧
  stateFile_state w' = stateFile_state w.
Proof.
  induction optionsList as [|options rest IH]; intros w r w' Hrun.
  { by inversion Hrun. }
  rewrite forEachAsync_cons in Hrun.
  destruct (tryCopy options w) as [[[]|e] w1] eqn:Hcopy.
  - apply tryCopy_frame in Hcopy as (Hf1 & Hd1 & Hp1 & Ht1 & Hs1).
    apply IH in Hrun as (Hf & Hd & Hp & Ht & Hs).
    split_and!; try congruence.
    intros p Hp'. rewrite fmap_cons, not_elem_of_cons in Hp'.
    destruct Hp' as [Hne Hnin]. rewrite Hf, Hf1; done.
  - simplify_eq. apply tryCopy_frame in Hcopy as (Hf1 & Hd1 & Hp1 & Ht1 & Hs1).
    split_and!; try done. intros p Hp'. apply Hf1.
    rewrite fmap_cons, not_elem_of_cons in Hp'. tauto.
Qed.



Lemma copies_spec optionsList : ∀ w,
  (∀ o, o ∈ optionsList →
     isFolder (files w !! sourcePath o) = false ∧
     isFolder (files w !! destinationPath o) = false) →
  (∀ o o', o ∈ optionsList → o' ∈ optionsList →
     sourcePath o ≠ destinationPath o') →
  NoDup (destinationPath <$> optionsList) →
  ∃ w', forEachAsync optionsList tryCopy w = (Resolved (), w') ∧
    ∀ o, o ∈ optionsList →
      copiedOrSkipped w w' (sourcePath o) (destinationPath o).
Proof.
  induction optionsList as [|options rest IH]; intros w Hfiles Hapart Hdup.
  { eexists. split; [done|]. intros o Ho. inversion Ho. }
  rewrite fmap_cons in Hdup. apply NoDup_cons in Hdup as [Hfresh Hdup].
  destruct (Hfiles options) as [Hsrc Hdst]; [left|].
  destruct (tryCopy_resolves options w Hsrc Hdst) as [w1 Hcopy].
  pose proof (tryCopy_frame _ _ _ _ Hcopy) as (Hf1 & Hd1 & _).
  destruct (IH w1) as (w' & Hrun & Hrest); [| |done|].
  { intros o Ho. rewrite !Hd1. apply Hfiles. by right. }
  { intros o o' Ho Ho'. apply Hapart; by right. }
  exists w'. rewrite forEachAsync_cons, Hcopy. split; [done|].
  pose proof (copies_frame _ _ _ _ Hrun) as (Hf & _).
  intros o [->|Ho]%elem_of_cons.
  - unfold copiedOrSkipped. rewrite (Hf _ Hfresh).
    rewrite tryCopy_unfold in Hcopy.
    destruct (files w !! sourcePath options) as [[content|items]|]; [|done|].
    + rewrite Hdst in Hcopy. simplify_eq. cbn. by rewrite lookup_insert_eq.
    + by simplify_eq.
  - specialize (Hrest o Ho). unfold copiedOrSkipped in *.
    assert (destinationPath o ≠ destinationPath options) as Hne.
    { intros Heq. apply Hfresh. rewrite <- Heq. by apply list_elem_of_fmap_2. }
    rewrite Hf1 in Hrest by (apply Hapart; [by right|by left]).
    by rewrite (Hf1 _ Hne) in Hrest.
Qed.

Lemma new_paths options :
  let folder := metadataFolderPath options in
  OperationStateFile.filepath (stateFile (new options)) = folder ++ js "/state.json" ∧
  _logPath (new options) = folder ++ js "/all.log" ∧
  _errorLogPath (new options) = folder ++ js "/error.log" ∧
  _logChunksPath (new options) = folder ++ js "/log-chunks.jsonl".
Proof.
  unfold metadataFolderPath, new, OperationStateFile.new.
  cbn [stateFile OperationStateFile.filepath _logPath _errorLogPath _logChunksPath].
  rewrite <- !app_assoc. split_and!; reflexivity.
Qed.

Lemma metadata_files_apart options :
  let folder := metadataFolderPath options in
  NoDup [folder ++ js "/state.json"; folder ++ js "/all.log";
         folder ++ js "/error.log"; folder ++ js "/log-chunks.jsonl"].
Proof.
  intros folder. repeat (apply NoDup_cons; split); [..|apply NoDup_nil_2];
    rewrite ?elem_of_cons, elem_of_nil;
    intros Hin; repeat destruct Hin as [Hin|Hin]; try done;
    apply app_inv_head in Hin; discriminate Hin.
Qed.

Lemma saveAsync_unfold self md w :
  saveAsync self md w =
    match OperationStateFile.writeAsync (stateFile self) (stateOf md) w with
    | (Resolved _, w1) => forEachAsync (copyFileOptionsOf self md) tryCopy w1
    | (Rejected e, w1) => (Rejected e, w1)
    end.
Proof. reflexivity. Qed.

Lemma writeAsync_unfold (stateFile : OperationStateFile.t) json w :
  isFolder (files w !! OperationStateFile.filepath stateFile) = false →
  OperationStateFile.writeAsync stateFile json w =
    (Resolved (),
     set_state (Some json)
       (set_files (<[OperationStateFile.filepath stateFile :=
                       File (JsonFile_stringify json)]> (files w)) w)).
Proof. intros Hfile. unfold OperationStateFile.writeAsync. by rewrite Hfile. Qed.

(** C4. For every metadata record passed to [saveAsync], once the state
    file is written (its path is not taken by a folder) the persisted
    state.json of the operation's metadata folder holds the saved form of
    the record whose [nonCachedDurationMs] is [durationInSeconds * 1000]
    (the product of JavaScript numbers) and whose [cobuildContextId] and
    [cobuildRunnerId] are the given ones, whatever the copies of the logs
    do afterwards. *)
Theorem saveAsync_persists_state options md w :
  isFolder (files w !! (metadataFolderPath options ++ js "/state.json")) = false →
  files (saveAsync (new options) md w).2
    !! (metadataFolderPath options ++ js "/state.json") =
  Some (File (JsonFile_stringify
    {| IOperationStateJson.nonCachedDurationMs :=
         (IOperationMetaData.durationInSeconds md * 1000)%float;
       IOperationStateJson.cobuildContextId := IOperationMetaData.cobuildContextId md;
       IOperationStateJson.cobuildRunnerId := IOperationMetaData.cobuildRunnerId md |})).
Proof.
  destruct (new_paths options) as (Hstate & Hlog & Herr & Hchunks).
  pose proof (metadata_files_apart options) as Hapart. cbn zeta in Hapart.
  apply NoDup_cons in Hapart as [Hfresh _].
  rewrite <- Hstate. intros Hfile.
  rewrite saveAsync_unfold, writeAsync_unfold by done.
  match goal with |- files (forEachAsync ?l _ ?w1).2 !! _ = _ =>
    destruct (forEachAsync l tryCopy w1) as [r w'] eqn:Hrun end.
  apply copies_frame in Hrun as (Hf & _). cbn [snd].
  rewrite Hf; [cbn; by rewrite lookup_insert_eq|].
  change (OperationStateFile.filepath (stateFile (new options)) ∉
            [_logPath (new options); _errorLogPath (new options);
             _logChunksPath (new options)]).
  rewrite Hstate, Hlog, Herr, Hchunks. exact Hfresh.
Qed.

(** C5. For every call to [saveAsync] in a world where no path involved is
    taken by a folder and the given log files are not the metadata files
    themselves, [saveAsync] resolves and the files at [logPath],
    [errorLogPath] and [logChunksPath] are copied into the operation's
    metadata folder as all.log, error.log and log-chunks.jsonl respectively;
    a source file that does not exist is skipped (its destination is left as
    it was), without any effect on the copies of the other files. *)
Theorem saveAsync_copies_logs options md w :
  let folder := metadataFolderPath options in
  let sources := [IOperationMetaData.logPath md;
                  IOperationMetaData.errorLogPath md;
                  IOperationMetaData.logChunksPath md] in
  let metadataFiles := [folder ++ js "/state.json"; folder ++ js "/all.log";
                        folder ++ js "/error.log"; folder ++ js "/log-chunks.jsonl"] in
  (∀ p, p ∈ sources ++ metadataFiles → isFolder (files w !! p) = false) →
  (∀ p, p ∈ sources → p ∉ metadataFiles) →
  ∃ w', saveAsync (new options) md w = (Resolved (), w') ∧
    copiedOrSkipped w w' (IOperationMetaData.logPath md) (folder ++ js "/all.log") ∧
    copiedOrSkipped w w' (IOperationMetaData.errorLogPath md) (folder ++ js "/error.log") ∧
    copiedOrSkipped w w' (IOperationMetaData.logChunksPath md)
      (folder ++ js "/log-chunks.jsonl").
Proof.
  intros folder sources metadataFiles Hfiles Hsources.
  destruct (new_paths options) as (Hstate & Hlog & Herr & Hchunks).
  pose proof (metadata_files_apart options) as Hapart.
  fold folder in Hstate, Hlog, Herr, Hchunks, Hapart.
  apply NoDup_cons in Hapart as [Hfresh Hapart].
  assert (∀ o, o ∈ copyFileOptionsOf (new options) md →
            sourcePath o ∈ sources ∧
            destinationPath o ∈ [folder ++ js "/all.log"; folder ++ js "/error.log";
                                 folder ++ js "/log-chunks.jsonl"]) as Hoptions.
  { intros o Ho. unfold copyFileOptionsOf in Ho.
    rewrite Hlog, Herr, Hchunks, !elem_of_cons, elem_of_nil in Ho.
    destruct Ho as [->|[->|[->|[]]]]; cbn [sourcePath destinationPath];
      subst sources; in_list. }
  rewrite saveAsync_unfold, writeAsync_unfold
    by (rewrite Hstate; apply Hfiles; subst sources metadataFiles; in_list).
  set (w1 := set_state _ _).
  assert (∀ p, p ≠ folder ++ js "/state.json" → files w1 !! p = files w !! p)
    as Hw1.
  { intros p Hp. subst w1. unfold set_state, set_files. cbn [files].
    rewrite Hstate. by rewrite lookup_insert_ne. }
  assert (∀ p, isFolder (files w1 !! p) = isFolder (files w !! p)) as Hd1.
  { intros p. destruct (decide (p = folder ++ js "/state.json")) as [->|Hp].
    - subst w1. unfold set_state, set_files. cbn [files].
      rewrite Hstate, lookup_insert_eq. cbn. symmetry.
      apply Hfiles. subst sources metadataFiles. in_list.
    - by rewrite Hw1. }
  destruct (copies_spec (copyFileOptionsOf (new options) md) w1)
    as (w' & Hrun & Hcopies).
  - intros o [Hsrc Hdst]%Hoptions. rewrite !Hd1.
    split; apply Hfiles; rewrite elem_of_app; [by left|right; by right].
  - intros o o' [Hsrc _]%Hoptions [_ Hdst]%Hoptions Heq.
    apply (Hsources _ Hsrc). rewrite Heq. by right.
  - change (NoDup [_logPath (new options); _errorLogPath (new options);
                   _logChunksPath (new options)]).
    by rewrite Hlog, Herr, Hchunks.
  - exists w'. split; [done|].
    assert (∀ o, o ∈ copyFileOptionsOf (new options) md →
              copiedOrSkipped w w' (sourcePath o) (destinationPath o)) as Hback.
    { intros o Ho. pose proof (Hcopies o Ho) as Hcopy.
      apply Hoptions in Ho as [Hsrc Hdst]. unfold copiedOrSkipped in *.
      rewrite !Hw1 in Hcopy; [done| |].
      - intros Heq. apply Hfresh. by rewrite <- Heq.
      - intros Heq. apply (Hsources _ Hsrc). rewrite Heq. by left. }
    unfold copyFileOptionsOf in Hback. rewrite Hlog, Herr, Hchunks in Hback.
    split_and!;
      eapply (Hback (Build_IFileSystemCopyFileOptions _ _)); in_list.
Qed.


End saving.

(** ** Restoring the logs *)

Section restoring.
Context `{Externals}.
Import FileSystem OperationMetadataManager.

Lemma stateFile_restore_frame (stateFile : OperationStateFile.t) w st w1 :
  OperationStateFile.tryRestoreAsync stateFile w = (Resolved st, w1) →
  w1 = set_state st w.
Proof.
  unfold OperationStateFile.tryRestoreAsync. intros Hrestore.
  repeat case_match; by simplify_eq.
Qed.

Lemma parseChunks_all lines : ∀ chunks,
  (∀ line, line ∈ lines → line ≠ [] → ∃ c, JSON_parse line = Resolved c) →
  ∃ parsed,
    parseChunks lines chunks = Resolved (chunks ++ parsed) ∧
    Forall2 (λ line c, JSON_parse line = Resolved c)
      (filter (λ line, line ≠ []) lines) parsed.
Proof.
  induction lines as [|line lines IH]; intros chunks Hlines.
  { exists []. by rewrite app_nil_r. }
  rewrite filter_cons. cbn [parseChunks].
  destruct line as [|c line]; cbn [truthy].
  - rewrite decide_False by auto. apply IH. intros ? ?. apply Hlines. by right.
  - rewrite decide_True by done.
    destruct (Hlines (c :: line)) as [chunk Hchunk]; [by left|done|].
    rewrite Hchunk.
    destruct (IH (chunks ++ [chunk])) as (parsed & Hparsed & Hall).
    { intros ? ?. apply Hlines. by right. }
    exists (chunk :: parsed). rewrite Hparsed, <- app_assoc. split; [done|].
    by constructor.
Qed.

Lemma replay_all chunks : ∀ w,
  forEachAsync chunks replayChunk w =
    (Resolved (),
     {| files := files w;
        terminalProviderWrites :=
          terminalProviderWrites w
            ++ map (λ c, (ITerminalChunk.text c, severityOf c)) chunks;
        terminalWrites := terminalWrites w;
        stateFile_state := stateFile_state w |}).
Proof.
  induction chunks as [|c chunks IH]; intros w.
  { cbn. rewrite app_nil_r. by destruct w. }
  rewrite forEachAsync_cons.
  assert (replayChunk c w =
            terminalProvider_write (ITerminalChunk.text c) (severityOf c) w) as ->.
  { unfold replayChunk, severityOf, str_eqb.
    destruct (decide (ITerminalChunk.kind c = TerminalChunkKind_Stderr)).
    - by rewrite bool_decide_eq_true_2.
    - by rewrite bool_decide_eq_false_2. }
  unfold terminalProvider_write at 1. rewrite IH. cbn. by rewrite <- app_assoc.
Qed.

Lemma write_all pieces : ∀ w,
  forEachAsync pieces terminal_write w =
    (Resolved (),
     {| files := files w;
        terminalProviderWrites := terminalProviderWrites w;
        terminalWrites := terminalWrites w ++ pieces;
        stateFile_state := stateFile_state w |}).
Proof.
  induction pieces as [|piece pieces IH]; intros w.
  { cbn. rewrite app_nil_r. by destruct w. }
  rewrite forEachAsync_cons. unfold terminal_write at 1. rewrite IH. cbn.
  by rewrite <- app_assoc.
Qed.

Lemma tryRestoreAsync_unfold self errorLogPath w :
  tryRestoreAsync self errorLogPath w =
    match OperationStateFile.tryRestoreAsync (stateFile self) w with
    | (Resolved _, w1) =>
        match
          try_catch
            (rawLogChunks ← readFileAsync (_logChunksPath self);
             chunks ← settle (parseChunks (split newline rawLogChunks) []);
             forEachAsync chunks replayChunk)
            (λ e, if isNotExistError e
                  then restoreFromLogFile (_logPath self)
                  else throw e) w1
        with
        | (Resolved _, w2) =>
            tryCopy {| sourcePath := _errorLogPath self;
                       destinationPath := errorLogPath |} w2
        | (Rejected e, w2) => (Rejected e, w2)
        end
    | (Rejected e, w1) => (Rejected e, w1)
    end.
Proof. reflexivity. Qed.

(** C1. For every saved log-chunks file whose non-empty lines are
    JSON-encoded chunks, when the state file's restore does not throw,
    [tryRestoreAsync] replays every non-empty line's chunk to the terminal
    provider, in the order of the lines in the file: a chunk whose kind is
    Stderr is written at error severity, every other chunk at log severity;
    nothing is written to the plain terminal. *)
Theorem tryRestoreAsync_replays_chunks self errorLogPath w st w1 rawLogChunks :
  OperationStateFile.tryRestoreAsync (stateFile self) w = (Resolved st, w1) →
  files w !! _logChunksPath self = Some (File rawLogChunks) →
  (∀ line, line ∈ split newline rawLogChunks → line ≠ [] →
     ∃ c, JSON_parse line = Resolved c) →
  ∃ chunks,
    Forall2 (λ line c, JSON_parse line = Resolved c)
      (filter (λ line, line ≠ []) (split newline rawLogChunks)) chunks ∧
    terminalProviderWrites (tryRestoreAsync self errorLogPath w).2 =
      terminalProviderWrites w
        ++ map (λ c, (ITerminalChunk.text c,
                      if decide (ITerminalChunk.kind c = TerminalChunkKind_Stderr)
                      then error else log)) chunks ∧
    terminalWrites (tryRestoreAsync self errorLogPath w).2 = terminalWrites w.
Proof.
  intros Hstate Hfile Hlines.
  destruct (parseChunks_all _ [] Hlines) as (chunks & Hparse & Hall).
  exists chunks. split; [done|].
  rewrite tryRestoreAsync_unfold, Hstate.
  apply stateFile_restore_frame in Hstate as ->.
  unfold try_catch, mbind, Async_bind, readFileAsync, settle.
  cbn [files set_state]. rewrite Hfile, Hparse, replay_all. cbn [app].
  match goal with |- context [tryCopy ?o ?w2] =>
    destruct (tryCopy o w2) as [r w3] eqn:Hcopy end.
  apply tryCopy_frame in Hcopy as (_ & _ & Hp & Ht & _).
  cbn [snd]. split; [by rewrite Hp|by rewrite Ht].
Qed.

Lemma restoreFromLogFile_unfold path w :
  restoreFromLogFile path w =
    match files w !! path with
    | None => (Resolved (), w)
    | Some (Folder _) => (Rejected (ErrnoException EISDIR path), w)
    | Some (File content) =>
        forEachAsync (readStream_chunks content) terminal_write w
    end.
Proof.
  unfold restoreFromLogFile, try_catch, mbind, Async_bind, createReadStream.
  destruct (files w !! path) as [[content|items]|]; try done.
  by rewrite write_all.
Qed.

(** Without a log-chunks file the restore is the state file's restore, the
    replay of the plain log and the copy of the error log. *)
Lemma tryRestoreAsync_fallback self errorLogPath w st w1 :
  OperationStateFile.tryRestoreAsync (stateFile self) w = (Resolved st, w1) →
  files w !! _logChunksPath self = None →
  tryRestoreAsync self errorLogPath w =
    match restoreFromLogFile (_logPath self) w1 with
    | (Resolved _, w2) =>
        tryCopy {| sourcePath := _errorLogPath self;
                   destinationPath := errorLogPath |} w2
    | (Rejected e, w2) => (Rejected e, w2)
    end.
Proof.
  intros Hstate Hchunks. rewrite tryRestoreAsync_unfold, Hstate.
  apply stateFile_restore_frame in Hstate as ->.
  unfold try_catch at 1. unfold mbind at 1, Async_bind at 1, readFileAsync.
  cbn [files set_state]. rewrite Hchunks. cbn [isNotExistError].
  by destruct (restoreFromLogFile _ _) as [[[]|e] w2].
Qed.

(** C3. For every call to [tryRestoreAsync] where the stored log-chunks file
    does not exist (and the state file's restore does not throw), the
    restore falls back to the plain all.log: its content is written to the
    terminal, piece by piece, and nothing is replayed to the terminal
    provider; and if all.log and the stored error.log do not exist either,
    [tryRestoreAsync] resolves, with nothing written and no file changed. *)
Theorem tryRestoreAsync_falls_back self errorLogPath w st w1 :
  OperationStateFile.tryRestoreAsync (stateFile self) w = (Resolved st, w1) →
  files w !! _logChunksPath self = None →
  (∀ content, files w !! _logPath self = Some (File content) →
     terminalWrites (tryRestoreAsync self errorLogPath w).2 =
       terminalWrites w ++ readStream_chunks content ∧
     terminalProviderWrites (tryRestoreAsync self errorLogPath w).2 =
       terminalProviderWrites w) ∧
  (files w !! _logPath self = None → files w !! _errorLogPath self = None →
     tryRestoreAsync self errorLogPath w = (Resolved (), w1) ∧
     files w1 = files w ∧
     terminalWrites w1 = terminalWrites w ∧
     terminalProviderWrites w1 = terminalProviderWrites w).
Proof.
  intros Hstate Hchunks.
  rewrite (tryRestoreAsync_fallback _ _ _ _ _ Hstate Hchunks).
  apply stateFile_restore_frame in Hstate as ->.
  rewrite restoreFromLogFile_unfold. cbn [files set_state]. split.
  - intros content Hlog. rewrite Hlog, write_all.
    match goal with |- context [tryCopy ?o ?w2] =>
      destruct (tryCopy o w2) as [r w3] eqn:Hcopy end.
    apply tryCopy_frame in Hcopy as (_ & _ & Hp & Ht & _).
    cbn [snd]. split; [by rewrite Ht|by rewrite Hp].
  - intros Hlog Herr. rewrite Hlog.
    rewrite tryCopy_unfold. cbn [sourcePath files set_state]. by rewrite Herr.
Qed.

End restoring.

#[local] Existing Instance Demo.externals.



Lemma saveAsync_persists_state_witness :
  files (OperationMetadataManager.saveAsync Demo.manager Demo.metadata
           Demo.afterBuild).2
    !! js "/repo/app/.rush/temp/operation/app_build_/state.json" =
  Some (File (Demo.stringifyState
    {| IOperationStateJson.nonCachedDurationMs := 1500%float;
       IOperationStateJson.cobuildContextId := Some (js "ctx");
       IOperationStateJson.cobuildRunnerId := Some (js "runner-1") |})).
Proof.
  apply (saveAsync_persists_state (H := Demo.externals)
           Demo.options Demo.metadata Demo.afterBuild).
  vm_compute. reflexivity.
Defined.

Lemma saveAsync_copies_logs_witness :
  ∃ w', OperationMetadataManager.saveAsync Demo.manager Demo.metadata
          Demo.afterBuild = (Resolved (), w') ∧
    files w' !! js "/repo/app/.rush/temp/operation/app_build_/all.log"
      = Some (File (js "building")) ∧
    files w' !! js "/repo/app/.rush/temp/operation/app_build_/error.log" = None.
Proof.
  destruct (saveAsync_copies_logs (H := Demo.externals)
              Demo.options Demo.metadata Demo.afterBuild)
    as (w' & Hrun & Hlog & Herr & _).
  - intros p Hp. rewrite elem_of_app, !elem_of_cons, !elem_of_nil in Hp.
    destruct Hp as [[->|[->|[->|[]]]]|[->|[->|[->|[->|[]]]]]];
      vm_compute; reflexivity.
  - intros p Hp. rewrite !elem_of_cons, !elem_of_nil in Hp.
    destruct Hp as [->|[->|[->|[]]]];
      rewrite !elem_of_cons, elem_of_nil; vm_compute;
      intros [Heq|[Heq|[Heq|[Heq|[]]]]]; discriminate Heq.
  - exists w'. split; [exact Hrun|]. split; [exact Hlog|exact Herr].
Defined.

Example tryRestoreAsync_savedChunks :
  terminalProviderWrites
    (OperationMetadataManager.tryRestoreAsync Demo.manager
       (js "/repo/app/rush-logs/app.build.error.log") Demo.savedChunks).2
  = [(js "compiling", log); (js "deprecated", error)].
Proof. vm_compute. reflexivity. Qed.

Lemma tryRestoreAsync_replays_chunks_witness :
  let restored :=
    (OperationMetadataManager.tryRestoreAsync Demo.manager
       (js "/repo/app/rush-logs/app.build.error.log") Demo.savedChunks).2 in
  ∃ chunks,
    Forall2 (λ line c, Demo.parseChunkLine line = Resolved c)
      (filter (λ line, line ≠ [])
         (split newline
            (Demo.chunkLine (js "O") (js "compiling") ++ [newline] ++ [newline]
               ++ Demo.chunkLine (js "E") (js "deprecated") ++ [newline])))
      chunks ∧
    terminalProviderWrites restored =
      [] ++ map (λ c, (ITerminalChunk.text c,
                       if decide (ITerminalChunk.kind c = js "E")
                       then error else log)) chunks ∧
    terminalWrites restored = [].
Proof.
  apply (tryRestoreAsync_replays_chunks (H := Demo.externals) Demo.manager
           (js "/repo/app/rush-logs/app.build.error.log") Demo.savedChunks
           None (set_state None Demo.savedChunks)).
  - vm_compute. reflexivity.
  - vm_compute. reflexivity.
  - intros line Hline Hnonempty.
    set (lines := split _ _) in Hline. vm_compute in lines. subst lines.
    rewrite !elem_of_cons, elem_of_nil in Hline.
    destruct Hline as [->|[->|[->|[->|[]]]]]; try done;
      eexists; vm_compute; reflexivity.
Defined.

Lemma tryRestoreAsync_falls_back_witness :
  terminalWrites
    (OperationMetadataManager.tryRestoreAsync Demo.manager
       (js "/repo/app/rush-logs/app.build.error.log") Demo.savedLogOnly).2
    = [js "compiling"] ∧
  OperationMetadataManager.tryRestoreAsync Demo.manager
    (js "/repo/app/rush-logs/app.build.error.log") (Demo.worldOf ∅)
    = (Resolved (), Demo.worldOf ∅).
Proof.
  split.
  - refine (proj1 (proj1 (tryRestoreAsync_falls_back (H := Demo.externals)
      Demo.manager (js "/repo/app/rush-logs/app.build.error.log")
      Demo.savedLogOnly None (set_state None Demo.savedLogOnly) _ _)
      (js "compiling") _)); vm_compute; reflexivity.
  - refine (proj1 (proj2 (tryRestoreAsync_falls_back (H := Demo.externals)
      Demo.manager (js "/repo/app/rush-logs/app.build.error.log")
      (Demo.worldOf ∅) None (set_state None (Demo.worldOf ∅)) _ _) _ _));
      vm_compute; reflexivity.
Defined.

(** ** The pnpm-sync copy plugin *)

Section pnpm_sync.
Import PnpmSyncCopyOperationPlugin.

Lemma skip_test_spec (st : OperationStatus) :
  bool_decide (st = Skipped) || bool_decide (st = FromCache)
    || bool_decide (st = NoOp) = true
  ↔ st ∈ [Skipped; FromCache; NoOp].
Proof.
  rewrite !elem_of_cons, elem_of_nil, !orb_true_iff, !bool_decide_eq_true.
  tauto.
Qed.

(** C8. For every operation execution record whose status is Skipped,
    FromCache or NoOp, the [afterExecuteOperation] tap returns at once: it
    does nothing to the outside, and no pnpm-sync copy. The copy is
    attempted only (and then always) for a record with another status, of an
    operation with an associated project whose folder holds
    node_modules/.pnpm-sync.json; that file is the one handed to the copy. *)
Theorem afterExecuteOperation_copies_only_after_execution record fs :
  (status record ∈ [Skipped; FromCache; NoOp] →
   afterExecuteOperation record fs = []) ∧
  (∀ path, PnpmSyncCopyAsync path ∈ afterExecuteOperation record fs ↔
     (status record ∉ [Skipped; FromCache; NoOp]) ∧
     ∃ projectFolder,
       associatedProject record = Some projectFolder ∧
       path = projectFolder ++ js "/node_modules/.pnpm-sync.json" ∧
       is_Some (fs !! path)).
Proof.
  unfold afterExecuteOperation, pnpmSyncJsonPathOf, FileSystem.exists_.
  pose proof (skip_test_spec (status record)) as Hskip.
  destruct (_ || _ || _); split.
  - done.
  - intros path. split; [by intros ?%elem_of_nil|].
    intros [Hnot _]. destruct Hnot. by apply Hskip.
  - intros Hin. by apply Hskip in Hin.
  - intros path.
    assert (status record ∉ [Skipped; FromCache; NoOp]) as Hexecuted.
    { intros Hin. by apply Hskip in Hin. }
    clear Hskip. revert Hexecuted.
    generalize (status record ∉ [Skipped; FromCache; NoOp]).
    intros executed Hexecuted.
    destruct (associatedProject record) as [projectFolder|].
    + case_bool_decide as Hfile;
        rewrite !elem_of_cons, elem_of_nil; split.
      * intros [Heq|[Heq|[Heq|[]]]]; try discriminate Heq.
        simplify_eq. split; [done|]. by exists projectFolder.
      * intros (_ & folder & [= <-] & -> & _). auto.
      * intros [Heq|[]]. discriminate Heq.
      * intros (_ & folder & [= <-] & -> & Hsome). done.
    + split; [by intros ?%elem_of_nil|]. by intros (_ & ? & ? & _).
Qed.

End pnpm_sync.

Example afterExecuteOperation_success :
  PnpmSyncCopyOperationPlugin.afterExecuteOperation
    (PluginDemo.executed Success) PluginDemo.fs
  = [PnpmSyncCopyOperationPlugin.FileSystem_exists
       (js "/repo/app/node_modules/.pnpm-sync.json");
     PnpmSyncCopyOperationPlugin.ImportPackageExtractor;
     PnpmSyncCopyOperationPlugin.PnpmSyncCopyAsync
       (js "/repo/app/node_modules/.pnpm-sync.json")].
Proof. vm_compute. reflexivity. Qed.

Example afterExecuteOperation_from_cache :
  PnpmSyncCopyOperationPlugin.afterExecuteOperation
    (PluginDemo.executed FromCache) PluginDemo.fs = [].
Proof. vm_compute. reflexivity. Qed.

(** ** The project validator *)

Section validator.
Import ProjectValidatorPlugin.
Variables buildCacheFolderName projectHeftFolderName projectConfigFolderName
  : jsstring.

Lemma scanItem_spec disallowedItemNames folderItem :
  (isDirectory folderItem = false ∨ name folderItem ≠ buildCacheFolderName →
   ∃ reported, scanItem buildCacheFolderName disallowedItemNames folderItem
               = disallowedItemNames ++ [reported]) ∧
  (¬ (isDirectory folderItem = false ∨ name folderItem ≠ buildCacheFolderName) →
   scanItem buildCacheFolderName disallowedItemNames folderItem
     = disallowedItemNames).
Proof.
  unfold scanItem, ALLOWED_HEFT_DATA_FOLDER_SUBFOLDERS,
    ALLOWED_HEFT_DATA_FOLDER_FILES.
  destruct (isDirectory folderItem).
  - case_bool_decide as Hin; rewrite elem_of_singleton in Hin; cbn [negb].
    + split; [intros [?|?]; done|done].
    + split; [by eauto|]. intros Hnot. exfalso. apply Hnot. by right.
  - rewrite bool_decide_eq_false_2 by apply not_elem_of_empty. cbn [negb].
    split; [by eauto|]. intros Hnot. exfalso. apply Hnot. by left.
Qed.

Lemma scan_reports items : ∀ disallowedItemNames,
  0 < length (foldl (scanItem buildCacheFolderName) disallowedItemNames items) ↔
  0 < length disallowedItemNames ∨
  ∃ item, item ∈ items ∧
    (isDirectory item = false ∨ name item ≠ buildCacheFolderName).
Proof.
  induction items as [|item items IH]; intros acc; cbn [foldl].
  { split; [by left|]. intros [?|(? & Hin & _)]; [done|inversion Hin]. }
  rewrite IH.
  destruct (decide (isDirectory item = false ∨ name item ≠ buildCacheFolderName))
    as [Hbad|Hgood].
  - destruct (proj1 (scanItem_spec acc item) Hbad) as [reported ->].
    rewrite length_app. cbn. split; [|lia].
    intros _. right. exists item. split; [by left|done].
  - rewrite (proj2 (scanItem_spec acc item) Hgood).
    split; (intros [?|(other & Hin & Hbad)]; [by left|right]).
    + exists other. split; [by right|done].
    + apply elem_of_cons in Hin as [->|Hin]; [done|by eauto].
Qed.

(** C10. [_scanHeftDataFolderAsync] returns silently (it resolves, and warns
    of nothing) when the project's .heft data folder does not exist; and
    when the folder exists it resolves and emits at most one warning, and
    exactly one if and only if the folder holds at least one disallowed
    item: any item that is not a folder (no file is allowed), or a folder
    other than the build cache folder. *)
Theorem scanHeftDataFolder_warns_once projectHeftDataFolder fs :
  let result :=
    _scanHeftDataFolderAsync buildCacheFolderName projectHeftFolderName
      projectConfigFolderName projectHeftDataFolder fs in
  (fs !! projectHeftDataFolder = None → result = (Resolved (), [])) ∧
  (∀ items, fs !! projectHeftDataFolder = Some (Folder items) →
     result.1 = Resolved () ∧ length result.2 ≤ 1 ∧
     (length result.2 = 1 ↔
      ∃ item, item ∈ items ∧
        (isDirectory item = false ∨ name item ≠ buildCacheFolderName))).
Proof.
  unfold _scanHeftDataFolderAsync, FileSystem.readFolderItems. split.
  - by intros ->.
  - intros items ->. pose proof (scan_reports items []) as Hscan.
    destruct (Nat.ltb_spec 0
      (length (foldl (scanItem buildCacheFolderName) [] items))) as [Hlt|Hle];
      cbn [fst snd length].
    + split_and!; [done|lia|]. split; [|done]. intros _.
      destruct (proj1 Hscan Hlt) as [Hnil|Hitem]; [cbn in Hnil; lia|done].
    + split_and!; [done|lia|]. split; [done|]. intros Hitem.
      assert (0 < length (foldl (scanItem buildCacheFolderName) [] items))
        by (apply Hscan; by right). lia.
Qed.

End validator.

Example scanHeftDataFolder_stray_file :
  ProjectValidatorPlugin._scanHeftDataFolderAsync (js "build-cache") (js ".heft")
    (js "config") (js "/repo/app/.heft") PluginDemo.fs
  = (Resolved (),
     [js "Found unexpected items in the " ++ [dquote] ++ js ".heft" ++ [dquote]
        ++ js " folder: " ++ [dquote] ++ js "typescript.json" ++ [dquote]
        ++ js ". If any of these are config files, they should go in the project's "
        ++ [dquote] ++ js "config" ++ [dquote] ++ js " folder."]).
Proof. vm_compute. reflexivity. Qed.

Example scanHeftDataFolder_missing :
  ProjectValidatorPlugin._scanHeftDataFolderAsync (js "build-cache") (js ".heft")
    (js "config") (js "/repo/lib/.heft") PluginDemo.fs
  = (Resolved (), []).
Proof. vm_compute. reflexivity. Qed.

(** ** Dispatch order *)

Section scheduling.
Import Scheduler.
Variables (g : Graph) (concurrencyLimit : nat).

Lemma eligible_satisfied s op :
  eligible g s op = true ↔ dependenciesSatisfied g s op.
Proof.
  unfold eligible, dependenciesSatisfied. rewrite forallb_forall.
  setoid_rewrite <- list_elem_of_In.
  split; intros Hdeps d Hd; specialize (Hdeps d Hd).
  - destruct (s !! d) as [st|]; [|done]. exists st. split; [done|].
    destruct st; try done; in_list.
  - destruct Hdeps as (st & -> & Hst). cbn.
    rewrite !elem_of_cons, elem_of_nil in Hst.
    by destruct Hst as [->|[->|[->|[->|[->|[]]]]]].
Qed.

(** A step changes the state of one operation, which was not yet in a
    terminal state. *)
Lemma step_changes s s' :
  step g concurrencyLimit s s' →
  ∃ op st st', s !! op = Some st ∧ st ∈ [Ready; Queued; Executing] ∧
               s' = <[op := st']> s.
Proof.
  intros Hstep. inversion Hstep as
    [? op ? ?|? op ? ?|? op outcome ? ?|? op st decision ? Hst ? ?
    |? op st ? Hst ?|? op st ? Hst]; subst;
    eexists op, _, _; (split; [eassumption|split; [|reflexivity]]);
    try in_list; elem_cases Hst; in_list.
Qed.

(** Satisfied dependencies stay satisfied: their states are terminal. *)
Lemma satisfied_stable s op o st st' :
  s !! o = Some st → st ∈ [Ready; Queued; Executing] →
  dependenciesSatisfied g s op →
  dependenciesSatisfied g (<[o := st']> s) op.
Proof.
  intros Ho Hst Hdeps d Hd. destruct (Hdeps d Hd) as (std & Hlookup & Hstd).
  exists std. split; [|done]. rewrite lookup_insert_ne; [done|].
  intros ->. rewrite Ho in Hlookup. injection Hlookup as ->.
  elem_cases Hst; elem_cases Hstd.
Qed.

Lemma dispatchInvariant_initial s : initial g s → dispatchInvariant g s.
Proof.
  intros [_ Hinit] op st Hop Hst.
  destruct (Hinit op st Hop) as [->| ->]; elem_cases Hst.
Qed.

(** The state that a step gives to the operation it changes. *)
Lemma step_new_state s o st new :
  s !! o = Some st →
  step g concurrencyLimit s (<[o := new]> s) →
  (new = Queued ∧ st = Ready ∧ eligible g s o = true) ∨
  (new = Executing ∧ st = Queued) ∨
  new ∈ [Success; SuccessWithWarning; Failure; FromCache; NoOp; Blocked; Cancelled]
  ∨ new = st.
Proof.
  intros Ho Hstep. remember (<[o := new]> s) as s' eqn:Heq.
  destruct Hstep as
    [s op Hop Heligible|s op Hop ?|s op outcome Hop Hout
    |s op st0 decision Hop ? ? Hdec|s op st0 Hop ? ?|s op st0 Hop ?];
    (destruct (decide (op = o)) as [->|Hdiff];
     [ apply (f_equal (lookup o)) in Heq; rewrite !lookup_insert_eq in Heq;
       injection Heq as ->
     | apply (f_equal (lookup o)) in Heq;
       rewrite lookup_insert_eq, lookup_insert_ne, Ho in Heq by done;
       injection Heq as ->; by repeat right ]).
  - left. split_and!; [done|congruence|done].
  - right. left. split; [done|congruence].
  - right. right. left. elem_cases Hout; in_list.
  - right. right. left. elem_cases Hdec; in_list.
  - right. right. left. in_list.
  - right. right. left. in_list.
Qed.

Lemma dispatchInvariant_step s s' :
  step g concurrencyLimit s s' → dispatchInvariant g s → dispatchInvariant g s'.
Proof.
  intros Hstep Hinv op' st' Hop' Hst'.
  destruct (step_changes _ _ Hstep) as (o & st & new & Ho & Hnonterminal & ->).
  apply (satisfied_stable _ _ _ _ _ Ho Hnonterminal).
  destruct (decide (o = op')) as [->|Hne].
  - rewrite lookup_insert_eq in Hop'. injection Hop' as ->.
    destruct (step_new_state _ _ _ _ Ho Hstep)
      as [(_ & _ & Heligible)|[(_ & ->)|[Hterminal| ->]]].
    + by apply eligible_satisfied.
    + apply (Hinv op' Queued); [done|in_list].
    + elem_cases Hterminal; elem_cases Hst'.
    + by apply (Hinv op' st).
  - rewrite lookup_insert_ne in Hop' by done. by apply (Hinv op' st').
Qed.

Lemma dispatchInvariant_reachable s :
  reachable g concurrencyLimit s → dispatchInvariant g s.
Proof.
  intros (s0 & Hinit & Hrun).
  apply (rtc_ind_r (R := step g concurrencyLimit) (dispatchInvariant g) s0);
    [|..|exact Hrun].
  - by apply dispatchInvariant_initial.
  - intros s1 s2 _ Hstep IH. by eapply dispatchInvariant_step.
Qed.

(** C6. In every state of every run, an operation whose status is Executing
    has every one of its dependencies in a terminal non-blocking state
    (Success, SuccessWithWarning, FromCache, NoOp or Skipped); and at the
    step at which an operation's status becomes Executing, its dependencies
    had reached such a state already before the step. *)
Theorem dispatched_only_after_dependencies s :
  reachable g concurrencyLimit s →
  (∀ op, s !! op = Some Executing → dependenciesSatisfied g s op) ∧
  (∀ s' op, step g concurrencyLimit s s' →
     s !! op ≠ Some Executing → s' !! op = Some Executing →
     dependenciesSatisfied g s op).
Proof.
  intros Hinv%dispatchInvariant_reachable. split.
  - intros op Hop. apply (Hinv op Executing); [done|in_list].
  - intros s' op Hstep Hbefore Hafter.
    destruct (step_changes _ _ Hstep) as (o & st & new & Ho & _ & ->).
    destruct (decide (o = op)) as [->|Hne].
    + rewrite lookup_insert_eq in Hafter. injection Hafter as ->.
      destruct (step_new_state _ _ _ _ Ho Hstep)
        as [(Hnew & _)|[(_ & ->)|[Hterminal| <-]]].
      * discriminate Hnew.
      * apply (Hinv op Queued); [done|in_list].
      * elem_cases Hterminal.
      * done.
    + by rewrite lookup_insert_ne in Hafter.
Qed.

End scheduling.

Lemma dispatched_only_after_dependencies_witness :
  Scheduler.dependenciesSatisfied SchedulerDemo.graph SchedulerDemo.dispatchedY
    SchedulerDemo.Y.
Proof.
  refine (proj1 (dispatched_only_after_dependencies SchedulerDemo.graph 1
                   SchedulerDemo.dispatchedY _) SchedulerDemo.Y _);
    [|vm_compute; reflexivity].
  exists SchedulerDemo.start. split.
  - split; [vm_compute; reflexivity|].
    intros op st Hop. unfold SchedulerDemo.start in Hop.
    apply lookup_insert_Some in Hop as [[_ <-]|[_ Hop]]; [by left|].
    apply lookup_insert_Some in Hop as [[_ <-]|[_ Hop]]; [by left|].
    by rewrite lookup_empty in Hop.
  - unfold SchedulerDemo.dispatchedY.
    eapply rtc_l; [apply (Scheduler.step_select _ _ _ SchedulerDemo.X);
                   vm_compute; reflexivity|].
    eapply rtc_l; [apply (Scheduler.step_dispatch _ _ _ SchedulerDemo.X);
                   [vm_compute; reflexivity|vm_compute; lia]|].
    eapply rtc_l; [apply (Scheduler.step_report _ _ _ SchedulerDemo.X Success);
                   [vm_compute; reflexivity|in_list]|].
    eapply rtc_l; [apply (Scheduler.step_select _ _ _ SchedulerDemo.Y);
                   vm_compute; reflexivity|].
    eapply rtc_l; [apply (Scheduler.step_dispatch _ _ _ SchedulerDemo.Y);
                   [vm_compute; reflexivity|vm_compute; lia]|].
    apply rtc_refl.
Defined.

(** ** Cobuild claims *)

Section cobuild.
Import CobuildCoordinator.
Variables (ttl : N) (key : ClaimKey).

Lemma tryClaim_free now runner store :
  free now key store →
  tryClaim ttl now key runner store =
    (Claimed,
     <[key := {| runnerId := runner; state := claimed;
                 expiry := (now + ttl)%N |}]> store).
Proof.
  unfold free, tryClaim. intros Hfree.
  destruct (store !! key) as [r|]; [|done].
  destruct (unexpired now r) eqn:Hlive; [|done].
  by rewrite (Hfree r).
Qed.

Lemma tryClaim_held now runner store holder deadline :
  held key holder deadline store → (now < deadline)%N →
  ∃ result, tryClaim ttl now key runner store = (result, store) ∧
            (result = AlreadyClaimed ∨ result = AlreadyCompleted).
Proof.
  intros (r & Hr & _ & Hstate & <-) Hnow. unfold tryClaim, unexpired.
  rewrite Hr, (proj2 (N.ltb_lt _ _) Hnow).
  destruct (state r); [done|by eauto..].
Qed.

Lemma complete_held runner store holder deadline :
  held key holder deadline store →
  held key holder deadline (complete key runner store).
Proof.
  intros (r & Hr & <- & Hstate & <-). unfold complete. rewrite Hr.
  case_bool_decide as Hholder; [|by exists r].
  destruct Hholder as [<- _].
  eexists. rewrite lookup_insert_eq. by split_and!.
Qed.

Lemma complete_free now runner store :
  free now key store → free now key (complete key runner store).
Proof.
  unfold free, complete. intros Hfree.
  destruct (store !! key) as [r|] eqn:Hr; [|by rewrite Hr].
  case_bool_decide as Hholder; [|by rewrite Hr].
  intros r'. rewrite lookup_insert_eq. intros [= <-] Hlive.
  destruct Hholder as [_ Hclaimed]. specialize (Hfree r eq_refl Hlive).
  congruence.
Qed.

(** While the key is held, every [tryClaim] served before the deadline is
    turned away, and the holder stays. *)
Lemma serve_held calls : ∀ store holder deadline,
  held key holder deadline store →
  (∀ claim, claim ∈ claims calls → (claim.2 < deadline)%N) →
  Forall (λ result, result = AlreadyClaimed ∨ result = AlreadyCompleted)
    (serve ttl key calls store).1 ∧
  length (serve ttl key calls store).1 = length (claims calls) ∧
  held key holder deadline (serve ttl key calls store).2.
Proof.
  induction calls as [|[runner now|runner] calls IH]; intros store holder
    deadline Hheld Htimes; cbn [serve claims omap list_omap].
  - by split_and!.
  - destruct (tryClaim_held now runner store holder deadline Hheld)
      as (result & -> & Hresult); [apply (Htimes (runner, now)); by left|].
    destruct (IH store holder deadline Hheld) as (Hall & Hlen & Hstill).
    { intros claim Hclaim. apply Htimes. by right. }
    destruct (serve ttl key calls store) as [results store'].
    split_and!; [by constructor|by cbn; f_equal|done].
  - apply (IH _ holder deadline); [by apply complete_held|done].
Qed.

(** C7. Among the [tryClaim] calls that runners make for one (contextId,
    operationKey), served one compare-and-set at a time in any order and
    interleaved with [complete] calls, when the key is free as the first
    call is served and every call is served within that first claim's
    lease: exactly one call returns Claimed (the first one served), each of
    the other N-1 returns AlreadyClaimed or AlreadyCompleted, and the one
    record of the key is, in the end, still the winner's. *)
Theorem tryClaim_exactly_one_claimed calls store winner first :
  head (claims calls) = Some (winner, first) →
  free first key store →
  (∀ claim, claim ∈ claims calls → (claim.2 < first + ttl)%N) →
  let results := (serve ttl key calls store).1 in
  length results = length (claims calls) ∧
  (∃ others,
     results = Claimed :: others ∧
     Forall (λ result, result = AlreadyClaimed ∨ result = AlreadyCompleted)
       others) ∧
  held key winner (first + ttl) (serve ttl key calls store).2.
Proof.
  revert store.
  induction calls as [|[runner now|runner] calls IH]; intros store Hfirst Hfree
    Htimes; cbn [serve claims omap list_omap] in *.
  - discriminate Hfirst.
  - injection Hfirst as -> ->. rewrite (tryClaim_free _ winner _ Hfree).
    destruct (serve_held calls
      (<[key := {| runnerId := winner; state := claimed;
                   expiry := (first + ttl)%N |}]> store) winner (first + ttl)%N)
      as (Hall & Hlen & Hstill).
    { eexists. rewrite lookup_insert_eq. by split_and!. }
    { intros claim Hclaim. apply Htimes. by right. }
    destruct (serve ttl key calls _) as [results store'].
    cbn [fst snd length] in *. split_and!; [by f_equal|by eauto|done].
  - apply IH; [done|by apply complete_free|done].
Qed.

End cobuild.

Example race_results :
  (CobuildCoordinator.serve 10 CobuildDemo.key CobuildDemo.race ∅).1
  = [CobuildCoordinator.Claimed; CobuildCoordinator.AlreadyClaimed;
     CobuildCoordinator.AlreadyCompleted].
Proof. vm_compute. reflexivity. Qed.

Lemma tryClaim_exactly_one_claimed_witness :
  let served := CobuildCoordinator.serve 10 CobuildDemo.key CobuildDemo.race ∅ in
  length served.1 = 3 ∧
  (∃ others,
     served.1 = CobuildCoordinator.Claimed :: others ∧
     Forall (λ result, result = CobuildCoordinator.AlreadyClaimed
                       ∨ result = CobuildCoordinator.AlreadyCompleted) others) ∧
  CobuildCoordinator.held CobuildDemo.key (js "runner-1") 15 served.2.
Proof.
  apply (tryClaim_exactly_one_claimed 10 CobuildDemo.key CobuildDemo.race ∅
           (js "runner-1") 5).
  - reflexivity.
  - intros r Hr. by rewrite lookup_empty in Hr.
  - intros claim Hclaim. cbn in Hclaim. elem_cases Hclaim; reflexivity.
Defined.

(** * Further properties of the sources *)

(** ** Names of log files *)

Lemma normalizeName_cons c name :
  normalizeNameForLogFilenameIdentifiers (c :: name) =
    if N.eqb c space then normalizeNameForLogFilenameIdentifiers name
    else (if is_alnum c then c else underscore)
           :: normalizeNameForLogFilenameIdentifiers name.
Proof.
  unfold normalizeNameForLogFilenameIdentifiers.
  rewrite replace_all_cons. destruct (N.eqb c space); [done|].
  cbn [app]. rewrite replace_all_cons. by destruct (is_alnum c).
Qed.

Lemma normalizeName_length name :
  length (normalizeNameForLogFilenameIdentifiers name) ≤ length name.
Proof.
  induction name as [|c name IH]; [done|].
  rewrite normalizeName_cons. destruct (N.eqb c space); cbn; lia.
Qed.

Lemma normalizeName_chars name :
  Forall (λ c, is_alnum c = true ∨ c = underscore)
    (normalizeNameForLogFilenameIdentifiers name).
Proof.
  induction name as [|c name IH]; [by constructor|].
  rewrite normalizeName_cons. destruct (N.eqb c space); [done|].
  constructor; [|done]. destruct (is_alnum c) eqn:Hc; auto.
Qed.

Lemma normalizeName_keeps name :
  Forall (λ c, is_alnum c = true ∨ c = underscore) name →
  normalizeNameForLogFilenameIdentifiers name = name.
Proof.
  induction 1 as [|c name Hc _ IH]; [done|].
  rewrite normalizeName_cons, IH.
  destruct Hc as [Hc| ->]; [|done].
  destruct (N.eqb_spec c space) as [->|_]; [done|]. by rewrite Hc.
Qed.

(** X1. The names that [normalizeNameForLogFilenameIdentifiers] leaves as
    they are, are exactly the names made of ASCII letters, digits and
    underscores. *)
Theorem normalizeName_fixed_points (name : jsstring) :
  normalizeNameForLogFilenameIdentifiers name = name ↔
  Forall (λ c, is_alnum c = true ∨ c = underscore) name.
Proof.
  split; [|apply normalizeName_keeps].
  induction name as [|c name IH]; [by constructor|].
  rewrite normalizeName_cons. destruct (N.eqb c space).
  - intros Heq. pose proof (normalizeName_length name) as Hlen.
    rewrite Heq in Hlen. cbn in Hlen. lia.
  - intros [= Hc Hname]. constructor; [|by apply IH].
    destruct (is_alnum c); auto.
Qed.

(** X2. [normalizeNameForLogFilenameIdentifiers] is idempotent: a normalized
    name is its own normal form. *)
Theorem normalizeName_idempotent (name : jsstring) :
  normalizeNameForLogFilenameIdentifiers
    (normalizeNameForLogFilenameIdentifiers name)
  = normalizeNameForLogFilenameIdentifiers name.
Proof. apply normalizeName_keeps, normalizeName_chars. Qed.

Section identifiers.
Context `{Externals}.
Import OperationMetadataManager.

(** X3. The constructor takes the log file name identifier from the
    operation's name when that name is not empty: it is the normalized name,
    made of letters, digits and underscores only, and it is empty when the
    name holds nothing but spaces; with an undefined or empty name the
    identifier is the phase's, unchanged. *)
Theorem new_logFilenameIdentifier options :
  (∀ name,
     IOperationMetadataManagerOptions.operation_name options = Some name →
     name ≠ [] →
     logFilenameIdentifier (new options)
       = normalizeNameForLogFilenameIdentifiers name ∧
     Forall (λ c, is_alnum c = true ∨ c = underscore)
       (logFilenameIdentifier (new options)) ∧
     (Forall (λ c, c = space) name → logFilenameIdentifier (new options) = [])) ∧
  (IOperationMetadataManagerOptions.operation_name options = None ∨
   IOperationMetadataManagerOptions.operation_name options = Some [] →
   logFilenameIdentifier (new options)
     = IOperationMetadataManagerOptions.phase_logFilenameIdentifier options).
Proof.
  unfold new, logFilenameIdentifierOf. cbn [logFilenameIdentifier]. split.
  - intros name -> Hname. destruct name as [|c name]; [done|]. cbn [truthy].
    split_and!; [done|apply normalizeName_chars|].
    clear Hname. generalize (c :: name). intros spaces.
    induction 1 as [|? ? -> _ IH]; [done|]. by rewrite normalizeName_cons.
  - by intros [-> | ->].
Qed.

(** X4. The four metadata files are four different files: state.json,
    all.log, error.log and log-chunks.jsonl of the metadata folder, which
    [relativeFilepaths] lists relative to the project folder, in this order,
    and of which the manager's absolute paths are the project folder's
    children. *)
Theorem relativeFilepaths_metadata_files options :
  let self := new options in
  relativeFilepaths self =
    (λ fileName, _metadataFolder self ++ js "/" ++ fileName)
      <$> [js "state.json"; js "all.log"; js "error.log"; js "log-chunks.jsonl"] ∧
  NoDup (relativeFilepaths self) ∧
  [OperationStateFile.filepath (stateFile self); _logPath self;
   _errorLogPath self; _logChunksPath self] =
    (λ relativePath,
       IOperationMetadataManagerOptions.projectFolder options ++ js "/"
         ++ relativePath) <$> relativeFilepaths self.
Proof.
  cbn zeta. split_and!; [reflexivity| |reflexivity].
  unfold relativeFilepaths, new, OperationStateFile.new.
  cbn [stateFile OperationStateFile.relativeFilepath _relativeLogPath
       _relativeErrorLogPath _relativeLogChunksPath].
  repeat (apply NoDup_cons; split); [..|apply NoDup_nil_2];
    rewrite ?elem_of_cons, elem_of_nil;
    intros Hin; repeat destruct Hin as [Hin|Hin]; try done;
    apply app_inv_head in Hin; discriminate Hin.
Qed.

End identifiers.

(** ** What saving and restoring touch *)

Section persistence.
Context `{Externals}.
Import FileSystem OperationMetadataManager.

(** X5. Whatever its outcome, [saveAsync] changes no file other than the
    manager's four metadata files (so it never changes the logs it copies
    from), and it writes to no terminal. *)
Theorem saveAsync_touches_only_metadata self md w p :
  p ∉ [OperationStateFile.filepath (stateFile self); _logPath self;
       _errorLogPath self; _logChunksPath self] →
  files (saveAsync self md w).2 !! p = files w !! p ∧
  terminalProviderWrites (saveAsync self md w).2 = terminalProviderWrites w ∧
  terminalWrites (saveAsync self md w).2 = terminalWrites w.
Proof.
  intros Hp. apply not_elem_of_cons in Hp as [Hstate Hcopies].
  rewrite saveAsync_unfold. unfold OperationStateFile.writeAsync.
  destruct (isFolder _); [done|].
  match goal with |- context [forEachAsync ?l _ ?w1] =>
    destruct (forEachAsync l tryCopy w1) as [r w'] eqn:Hrun end.
  apply copies_frame in Hrun as (Hf & _ & Hprovider & Hterminal & _).
  cbn [snd]. rewrite Hf, Hprovider, Hterminal by exact Hcopies.
  cbn. by rewrite lookup_insert_ne.
Qed.

(** The middle of [tryRestoreAsync], the replay of the chunks or of the
    plain log, changes no file. *)
Lemma replay_frame self w r w' :
  try_catch
    (rawLogChunks ← readFileAsync (_logChunksPath self);
     chunks ← settle (parseChunks (split newline rawLogChunks) []);
     forEachAsync chunks replayChunk)
    (λ e, if isNotExistError e
          then restoreFromLogFile (_logPath self)
          else throw e) w = (r, w') →
  files w' = files w.
Proof.
  assert (∀ w0 r0 w0', restoreFromLogFile (_logPath self) w0 = (r0, w0') →
            files w0' = files w0) as Hplain.
  { intros w0 r0 w0'. rewrite restoreFromLogFile_unfold.
    destruct (files w0 !! _logPath self) as [[content|items]|];
      rewrite ?write_all; by intros [= _ <-]. }
  unfold try_catch, mbind, Async_bind, readFileAsync, settle, throw.
  destruct (files w !! _logChunksPath self) as [[raw|items]|].
  - destruct (parseChunks (split newline raw) []) as [chunks|e].
    + rewrite replay_all. by intros [= _ <-].
    + destruct (isNotExistError e); [apply Hplain|by intros [= _ <-]].
  - cbn [isNotExistError]. by intros [= _ <-].
  - cbn [isNotExistError]. apply Hplain.
Qed.

(** With a chunks file whose lines all parse, the restore is the state
    file's restore, the replay of the chunks and the copy of the error
    log. *)
Lemma tryRestoreAsync_with_chunks self errorLogPath w st w1 raw chunks :
  OperationStateFile.tryRestoreAsync (stateFile self) w = (Resolved st, w1) →
  files w !! _logChunksPath self = Some (File raw) →
  parseChunks (split newline raw) [] = Resolved chunks →
  tryRestoreAsync self errorLogPath w =
    tryCopy {| sourcePath := _errorLogPath self; destinationPath := errorLogPath |}
      {| files := files w;
         terminalProviderWrites :=
           terminalProviderWrites w
             ++ map (λ c, (ITerminalChunk.text c, severityOf c)) chunks;
         terminalWrites := terminalWrites w;
         stateFile_state := st |}.
Proof.
  intros Hstate Hfile Hparse. rewrite tryRestoreAsync_unfold, Hstate.
  apply stateFile_restore_frame in Hstate as ->.
  unfold try_catch at 1. unfold mbind, Async_bind, readFileAsync, settle.
  cbn [files set_state]. by rewrite Hfile, Hparse, replay_all.
Qed.



(** The files after a restore that resolved. *)
Lemma tryRestoreAsync_files self errorLogPath w w' :
  tryRestoreAsync self errorLogPath w = (Resolved (), w') →
  copiedOrSkipped w w' (_errorLogPath self) errorLogPath ∧
  ∀ p, p ≠ errorLogPath → files w' !! p = files w !! p.
Proof.
  rewrite tryRestoreAsync_unfold.
  destruct (OperationStateFile.tryRestoreAsync (stateFile self) w)
    as [[st|e] w1] eqn:Hstate; [|done].
  apply stateFile_restore_frame in Hstate as ->.
  match goal with |- context [try_catch ?body ?handler ?w1] =>
    destruct (try_catch body handler w1) as [[[]|e] w2] eqn:Hreplay end;
    [|done].
  apply replay_frame in Hreplay. cbn [files set_state] in Hreplay.
  intros Hcopy. pose proof (tryCopy_frame _ _ _ _ Hcopy) as (Hf & _).
  cbn [destinationPath] in Hf. split.
  - unfold copiedOrSkipped. rewrite tryCopy_unfold in Hcopy.
    cbn [sourcePath destinationPath] in Hcopy. rewrite Hreplay in Hcopy.
    destruct (files w !! _errorLogPath self) as [[content|items]|];
      [|done|simplify_eq; by rewrite Hreplay].
    destruct (isFolder (files w !! errorLogPath)); [done|].
    simplify_eq. cbn. by rewrite lookup_insert_eq.
  - intros p Hp. by rewrite Hf, Hreplay.
Qed.

(** X7. When [tryRestoreAsync] resolves, the stored error.log has been
    copied to the given [errorLogPath], or that path is left as it was when
    no error.log is stored; and no other file has changed. *)
Theorem tryRestoreAsync_restores_error_log self errorLogPath w w' :
  tryRestoreAsync self errorLogPath w = (Resolved (), w') →
  copiedOrSkipped w w' (_errorLogPath self) errorLogPath ∧
  ∀ p, p ≠ errorLogPath → files w' !! p = files w !! p.
Proof.
  intros Hrestore. destruct (tryRestoreAsync_files _ _ _ _ Hrestore). by split.
Qed.

(** X9. [restoreFromLogFile] writes the whole content of an existing log to
    the terminal, in order (given that a read stream hands out the content
    in consecutive pieces), changes no file and writes nothing to the
    terminal provider. *)
Theorem restoreFromLogFile_replays_content path w content :
  files w !! path = Some (File content) →
  concat (readStream_chunks content) = content →
  ∃ w', restoreFromLogFile path w = (Resolved (), w') ∧
    concat (terminalWrites w') = concat (terminalWrites w) ++ content ∧
    files w' = files w ∧
    terminalProviderWrites w' = terminalProviderWrites w.
Proof.
  intros Hfile Hpieces. rewrite restoreFromLogFile_unfold, Hfile, write_all.
  eexists. split; [done|]. cbn. by rewrite concat_app, Hpieces.
Qed.

End persistence.

(** ** Saving, then restoring *)

Section round_trip.
Context `{Externals}.
Import FileSystem OperationMetadataManager.

(** What a save without folders in its way leaves behind: the state, the
    copies, and untouched terminals. *)
Lemma saveAsync_outcome options md w :
  let folder := metadataFolderPath options in
  let sources := [IOperationMetaData.logPath md;
                  IOperationMetaData.errorLogPath md;
                  IOperationMetaData.logChunksPath md] in
  let metadataFiles := [folder ++ js "/state.json"; folder ++ js "/all.log";
                        folder ++ js "/error.log"; folder ++ js "/log-chunks.jsonl"] in
  (∀ p, p ∈ sources ++ metadataFiles → isFolder (files w !! p) = false) →
  (∀ p, p ∈ sources → p ∉ metadataFiles) →
  ∃ w', saveAsync (new options) md w = (Resolved (), w') ∧
    files w' !! OperationStateFile.filepath (stateFile (new options))
      = Some (File (JsonFile_stringify (stateOf md))) ∧
    (∀ o, o ∈ copyFileOptionsOf (new options) md →
       copiedOrSkipped w w' (sourcePath o) (destinationPath o)) ∧
    terminalProviderWrites w' = terminalProviderWrites w ∧
    terminalWrites w' = terminalWrites w.
Proof.
  intros folder sources metadataFiles Hfiles Hsources.
  destruct (new_paths options) as (Hstate & Hlog & Herr & Hchunks).
  pose proof (metadata_files_apart options) as Hapart.
  fold folder in Hstate, Hlog, Herr, Hchunks, Hapart.
  apply NoDup_cons in Hapart as [Hfresh Hapart].
  assert (∀ o, o ∈ copyFileOptionsOf (new options) md →
            sourcePath o ∈ sources ∧
            destinationPath o ∈ [folder ++ js "/all.log"; folder ++ js "/error.log";
                                 folder ++ js "/log-chunks.jsonl"]) as Hoptions.
  { intros o Ho. unfold copyFileOptionsOf in Ho.
    rewrite Hlog, Herr, Hchunks in Ho. elem_cases Ho;
      cbn [sourcePath destinationPath]; subst sources; in_list. }
  assert (∀ o, o ∈ copyFileOptionsOf (new options) md →
            sourcePath o ≠ folder ++ js "/state.json" ∧
            destinationPath o ≠ folder ++ js "/state.json") as Hnotstate.
  { intros o [Hsrc Hdst]%Hoptions. split; intros Heq.
    - apply (Hsources _ Hsrc). rewrite Heq. by left.
    - apply Hfresh. by rewrite <- Heq. }
  rewrite saveAsync_unfold, writeAsync_unfold
    by (rewrite Hstate; apply Hfiles; subst sources metadataFiles; in_list).
  set (w1 := set_state _ _).
  assert (∀ p, p ≠ folder ++ js "/state.json" → files w1 !! p = files w !! p)
    as Hw1.
  { intros p Hp. subst w1. unfold set_state, set_files. cbn [files].
    rewrite Hstate. by rewrite lookup_insert_ne. }
  destruct (copies_spec (copyFileOptionsOf (new options) md) w1)
    as (w' & Hrun & Hcopies).
  - intros o Ho. destruct (Hnotstate o Ho) as [Hsrc Hdst].
    apply Hoptions in Ho as [Hin Hin']. rewrite !Hw1 by done.
    split; apply Hfiles; rewrite elem_of_app; [by left|right; by right].
  - intros o o' [Hsrc _]%Hoptions [_ Hdst]%Hoptions Heq.
    apply (Hsources _ Hsrc). rewrite Heq. by right.
  - change (NoDup [_logPath (new options); _errorLogPath (new options);
                   _logChunksPath (new options)]).
    by rewrite Hlog, Herr, Hchunks.
  - exists w'. pose proof (copies_frame _ _ _ _ Hrun) as (Hf & _ & Hp & Ht & _).
    split_and!; [done| |..|done|done].
    + rewrite Hf.
      * subst w1. unfold set_state, set_files. cbn [files].
        by rewrite lookup_insert_eq.
      * change (OperationStateFile.filepath (stateFile (new options)) ∉
                  [_logPath (new options); _errorLogPath (new options);
                   _logChunksPath (new options)]).
        by rewrite Hstate, Hlog, Herr, Hchunks.
    + intros o Ho. pose proof (Hcopies o Ho) as Hcopy.
      destruct (Hnotstate o Ho) as [Hsrc Hdst]. unfold copiedOrSkipped in *.
      by rewrite !Hw1 in Hcopy.
Qed.

(** X8. Saving, then restoring: after a [saveAsync] that finds no folder in
    its way, when the state file reads back what it wrote, a
    [tryRestoreAsync] of the same manager replays the chunks of the lines of
    the file that was saved from [logChunksPath], in order, each at its
    severity. *)
Theorem saveAsync_then_tryRestoreAsync options md w raw errorLogPath :
  let folder := metadataFolderPath options in
  let sources := [IOperationMetaData.logPath md;
                  IOperationMetaData.errorLogPath md;
                  IOperationMetaData.logChunksPath md] in
  let metadataFiles := [folder ++ js "/state.json"; folder ++ js "/all.log";
                        folder ++ js "/error.log"; folder ++ js "/log-chunks.jsonl"] in
  (∀ p, p ∈ sources ++ metadataFiles → isFolder (files w !! p) = false) →
  (∀ p, p ∈ sources → p ∉ metadataFiles) →
  files w !! IOperationMetaData.logChunksPath md = Some (File raw) →
  (∀ line, line ∈ split newline raw → line ≠ [] →
     ∃ c, JSON_parse line = Resolved c) →
  (∃ state,
     JsonFile_parse (JsonFile_stringify
       {| IOperationStateJson.nonCachedDurationMs :=
            (IOperationMetaData.durationInSeconds md * 1000)%float;
          IOperationStateJson.cobuildContextId :=
            IOperationMetaData.cobuildContextId md;
          IOperationStateJson.cobuildRunnerId :=
            IOperationMetaData.cobuildRunnerId md |}) = Resolved state) →
  ∃ w' chunks,
    saveAsync (new options) md w = (Resolved (), w') ∧
    Forall2 (λ line c, JSON_parse line = Resolved c)
      (filter (λ line, line ≠ []) (split newline raw)) chunks ∧
    terminalProviderWrites (tryRestoreAsync (new options) errorLogPath w').2 =
      terminalProviderWrites w
        ++ map (λ c, (ITerminalChunk.text c,
                      if decide (ITerminalChunk.kind c = TerminalChunkKind_Stderr)
                      then error else log)) chunks.
Proof.
  intros folder sources metadataFiles Hfiles Hsources Hraw Hlines [state Hread].
  destruct (saveAsync_outcome options md w Hfiles Hsources)
    as (w' & Hsave & Hstate & Hcopies & Hprovider & _).
  destruct (parseChunks_all _ [] Hlines) as (chunks & Hparse & Hall).
  exists w', chunks. split_and!; [done..|].
  specialize (Hcopies {| sourcePath := IOperationMetaData.logChunksPath md;
                         destinationPath := _logChunksPath (new options) |}).
  unfold copiedOrSkipped in Hcopies. cbn [sourcePath destinationPath] in Hcopies.
  rewrite Hraw in Hcopies.
  rewrite (tryRestoreAsync_with_chunks (new options) errorLogPath w'
             (Some state) (set_state (Some state) w') raw chunks).
  - match goal with |- context [tryCopy ?o ?w2] =>
      destruct (tryCopy o w2) as [r w3] eqn:Hcopy end.
    apply tryCopy_frame in Hcopy as (_ & _ & Hp & _).
    cbn [snd]. by rewrite Hp, <- Hprovider.
  - unfold OperationStateFile.tryRestoreAsync. rewrite Hstate.
    unfold stateOf. by rewrite Hread.
  - apply Hcopies. unfold copyFileOptionsOf. in_list.
  - exact Hparse.
Qed.

(** X16. Saving, then restoring the error log: after a [saveAsync] that
    finds no folder in its way, every [tryRestoreAsync] of the same manager
    that resolves has written, at the path it was given, the content that
    the file at [errorLogPath] had when it was saved. *)
Theorem saveAsync_then_restore_error_log options md w content :
  let folder := metadataFolderPath options in
  let sources := [IOperationMetaData.logPath md;
                  IOperationMetaData.errorLogPath md;
                  IOperationMetaData.logChunksPath md] in
  let metadataFiles := [folder ++ js "/state.json"; folder ++ js "/all.log";
                        folder ++ js "/error.log"; folder ++ js "/log-chunks.jsonl"] in
  (∀ p, p ∈ sources ++ metadataFiles → isFolder (files w !! p) = false) →
  (∀ p, p ∈ sources → p ∉ metadataFiles) →
  files w !! IOperationMetaData.errorLogPath md = Some (File content) →
  ∃ w', saveAsync (new options) md w = (Resolved (), w') ∧
    ∀ restoreTo w'',
      tryRestoreAsync (new options) restoreTo w' = (Resolved (), w'') →
      files w'' !! restoreTo = Some (File content).
Proof.
  intros folder sources metadataFiles Hfiles Hsources Hcontent.
  destruct (saveAsync_outcome options md w Hfiles Hsources)
    as (w' & Hsave & _ & Hcopies & _).
  exists w'. split; [done|]. intros restoreTo w'' Hrestore.
  specialize (Hcopies {| sourcePath := IOperationMetaData.errorLogPath md;
                         destinationPath := _errorLogPath (new options) |}).
  unfold copiedOrSkipped in Hcopies. cbn [sourcePath destinationPath] in Hcopies.
  rewrite Hcontent in Hcopies.
  apply tryRestoreAsync_files in Hrestore as [Hcopied _].
  unfold copiedOrSkipped in Hcopied. rewrite Hcopies in Hcopied; [done|].
  unfold copyFileOptionsOf. in_list.
Qed.

End round_trip.

Lemma saveAsync_touches_only_metadata_witness :
  files (OperationMetadataManager.saveAsync Demo.manager Demo.metadata
           Demo.afterBuild).2 !! js "/repo/app/rush-logs/app.build.log"
    = Some (File (js "building")).
Proof.
  refine (proj1 (saveAsync_touches_only_metadata (H := Demo.externals)
    Demo.manager Demo.metadata Demo.afterBuild
    (js "/repo/app/rush-logs/app.build.log") _)).
  intros Hin. vm_compute in Hin. elem_cases Hin.
Defined.


Lemma tryRestoreAsync_restores_error_log_witness :
  files (OperationMetadataManager.tryRestoreAsync Demo.manager
           (js "/repo/app/rush-logs/app.build.error.log")
           RoundTripDemo.savedWithErrorLog).2
    !! js "/repo/app/rush-logs/app.build.error.log"
  = Some (File (js "deprecated")).
Proof.
  refine (proj1 (tryRestoreAsync_restores_error_log (H := Demo.externals)
    Demo.manager (js "/repo/app/rush-logs/app.build.error.log")
    RoundTripDemo.savedWithErrorLog _ _)).
  vm_compute. reflexivity.
Defined.

Lemma restoreFromLogFile_replays_content_witness :
  ∃ w', OperationMetadataManager.restoreFromLogFile
          (js "/repo/app/.rush/temp/operation/app_build_/all.log")
          Demo.savedLogOnly = (Resolved (), w') ∧
    concat (terminalWrites w') = [] ++ js "compiling" ∧
    files w' = files Demo.savedLogOnly ∧
    terminalProviderWrites w' = [].
Proof.
  apply (restoreFromLogFile_replays_content (H := Demo.externals)
           (js "/repo/app/.rush/temp/operation/app_build_/all.log")
           Demo.savedLogOnly (js "compiling")); vm_compute; reflexivity.
Defined.

Lemma saveAsync_then_tryRestoreAsync_witness :
  ∃ w' chunks,
    OperationMetadataManager.saveAsync (H := RoundTripDemo.externals)
      Demo.manager Demo.metadata Demo.afterBuild = (Resolved (), w') ∧
    Forall2 (λ line c, Demo.parseChunkLine line = Resolved c)
      (filter (λ line, line ≠ [])
         (split newline (Demo.chunkLine (js "O") (js "building") ++ [newline])))
      chunks ∧
    terminalProviderWrites
      (OperationMetadataManager.tryRestoreAsync (H := RoundTripDemo.externals)
         Demo.manager (js "/repo/app/rush-logs/app.build.error.log") w').2 =
      [] ++ map (λ c, (ITerminalChunk.text c,
                       if decide (ITerminalChunk.kind c = js "E")
                       then error else log)) chunks.
Proof.
  apply (saveAsync_then_tryRestoreAsync (H := RoundTripDemo.externals)
           Demo.options Demo.metadata Demo.afterBuild
           (Demo.chunkLine (js "O") (js "building") ++ [newline])
           (js "/repo/app/rush-logs/app.build.error.log")).
  - intros p Hp. rewrite elem_of_app in Hp. destruct Hp as [Hp|Hp];
      elem_cases Hp; vm_compute; reflexivity.
  - intros p Hp Hin. elem_cases Hp; vm_compute in Hin; elem_cases Hin.
  - vm_compute. reflexivity.
  - intros line Hline Hnonempty.
    set (lines := split _ _) in Hline. vm_compute in lines. subst lines.
    elem_cases Hline; try done. eexists. vm_compute. reflexivity.
  - eexists. vm_compute. reflexivity.
Defined.

(** ** The plugins' messages *)

Section pnpm_sync_log.
Import PnpmSyncCopyOperationPlugin.

(** X10. [logMessageCallback] writes at most one line per message, always
    with the message's own text; it writes nothing exactly for a verbose
    message when the plugin is not verbose, and it writes a plain line for
    every kind other than error, warning and verbose. *)
Theorem logMessageCallback_lines _isVerbose messageKind message :
  let lines := logMessageCallback _isVerbose messageKind message in
  length lines ≤ 1 ∧
  (∀ line, line ∈ lines → messageOf line = message) ∧
  (lines = [] ↔ messageKind = js "verbose" ∧ _isVerbose = false) ∧
  (messageKind ∉ [js "error"; js "warning"; js "verbose"] →
   lines = [Line message]).
Proof.
  unfold logMessageCallback, str_eqb. cbn zeta.
  case_bool_decide as Herror; [subst|case_bool_decide as Hwarning;
    [subst|case_bool_decide as Hverbose; [subst; destruct _isVerbose|]]].
  - split_and!; [cbn; lia|intros line Hline; by elem_cases Hline| |].
    + split; [done|]. intros [Hkind _]. vm_compute in Hkind. discriminate Hkind.
    + intros Hkind. destruct Hkind. in_list.
  - split_and!; [cbn; lia|intros line Hline; by elem_cases Hline| |].
    + split; [done|]. intros [Hkind _]. vm_compute in Hkind. discriminate Hkind.
    + intros Hkind. destruct Hkind. in_list.
  - split_and!; [cbn; lia|intros line Hline; by elem_cases Hline| |].
    + split; [done|]. by intros [_ ?].
    + intros Hkind. destruct Hkind. in_list.
  - split_and!; [cbn; lia|intros line Hline; by elem_cases Hline|done|].
    intros Hkind. destruct Hkind. in_list.
  - split_and!; [cbn; lia|intros line Hline; by elem_cases Hline| |done].
    split; [done|]. by intros [? _].
Qed.

End pnpm_sync_log.

Section validator_messages.
Import ProjectValidatorPlugin.
Variables buildCacheFolderName projectHeftFolderName projectConfigFolderName
  : jsstring.

(** How the scan writes an item: a folder's name ends in a slash, and
    either name is put between double quotes. *)
Lemma scan_lists items : ∀ disallowedItemNames,
  foldl (scanItem buildCacheFolderName) disallowedItemNames items =
    disallowedItemNames ++
    ((λ item, if isDirectory item
              then [dquote] ++ name item ++ js "/" ++ [dquote]
              else [dquote] ++ name item ++ [dquote])
       <$> filter (λ item, isDirectory item = false
                           ∨ name item ≠ buildCacheFolderName) items).
Proof.
  induction items as [|item items IH]; intros acc; cbn [foldl].
  { by rewrite app_nil_r. }
  rewrite IH, filter_cons. clear IH.
  unfold scanItem, ALLOWED_HEFT_DATA_FOLDER_SUBFOLDERS,
    ALLOWED_HEFT_DATA_FOLDER_FILES.
  destruct (isDirectory item) eqn:Hdir.
  - case_bool_decide as Hin; rewrite elem_of_singleton in Hin; cbn [negb].
    + rewrite decide_False; [done|]. intros [?|?]; done.
    + rewrite decide_True by (by right). rewrite fmap_cons, Hdir.
      by rewrite <- app_assoc.
  - rewrite bool_decide_eq_false_2 by apply not_elem_of_empty. cbn [negb].
    rewrite decide_True by (by left). rewrite fmap_cons, Hdir.
    by rewrite <- app_assoc.
Qed.

(** X11. The warning of [_scanHeftDataFolderAsync] lists exactly the
    disallowed items of the folder, in the folder's order, each between
    double quotes and a folder with a slash after its name; a file called
    like the build cache folder is listed too. Without a disallowed item
    there is no warning. *)
Theorem scanHeftDataFolder_warning_lists_items projectHeftDataFolder fs items :
  fs !! projectHeftDataFolder = Some (Folder items) →
  let reported :=
    (λ item, if isDirectory item
             then [dquote] ++ name item ++ js "/" ++ [dquote]
             else [dquote] ++ name item ++ [dquote])
      <$> filter (λ item, isDirectory item = false
                          ∨ name item ≠ buildCacheFolderName) items in
  (_scanHeftDataFolderAsync buildCacheFolderName projectHeftFolderName
     projectConfigFolderName projectHeftDataFolder fs).2 =
    match reported with
    | [] => []
    | _ => [warningMessage projectHeftFolderName projectConfigFolderName reported]
    end.
Proof.
  intros Hfolder reported.
  unfold _scanHeftDataFolderAsync, FileSystem.readFolderItems.
  rewrite Hfolder, scan_lists, app_nil_l. fold reported.
  by destruct reported.
Qed.

(** The loop over the taps finds a tap of the plugin's name, or none. *)
Lemma checkPluginIsMissing_cases missingPluginName configFilePath
    candidates url taps fs :
  let result :=
    _checkPluginIsMissingAsync missingPluginName configFilePath candidates url
      taps fs in
  (result.1 = false ↔ missingPluginName ∈ taps) ∧
  (missingPluginName ∈ taps → result.2 = []) ∧
  (missingPluginName ∉ taps →
   result.2 = if decide (is_Some (fs !! configFilePath))
              then [configFileWarning configFilePath candidates url]
              else []).
Proof.
  unfold _checkPluginIsMissingAsync, FileSystem.exists_.
  destruct (existsb _ taps) eqn:Htapped.
  - apply existsb_exists in Htapped as (tap & Hin & Heq).
    apply list_elem_of_In in Hin. apply bool_decide_eq_true in Heq as ->.
    cbn. by split_and!.
  - assert (missingPluginName ∉ taps) as Hmissing.
    { intros Hin%list_elem_of_In.
      assert (existsb (λ tapName, str_eqb tapName missingPluginName) taps = true)
        as Htrue; [|congruence].
      apply existsb_exists. exists missingPluginName. split; [done|].
      by apply bool_decide_eq_true. }
    cbn zeta. case_bool_decide; cbn [fst snd];
      (split_and!; [split; [done|by intros ?]|done|]); intros _.
    + by rewrite decide_True.
    + by rewrite decide_False.
Qed.

(** X12. [_checkPluginIsMissingAsync] returns false exactly when the hook
    has a tap of the plugin's name, and then it warns of nothing, whether
    the configuration file exists or not; otherwise it returns true, and it
    emits its one warning exactly when the configuration file exists. *)
Theorem checkPluginIsMissing_result missingPluginName configFilePath
    candidates url taps fs :
  let result :=
    _checkPluginIsMissingAsync missingPluginName configFilePath candidates url
      taps fs in
  (result.1 = false ↔ missingPluginName ∈ taps) ∧
  (missingPluginName ∈ taps → result.2 = []) ∧
  (missingPluginName ∉ taps →
   result.2 = if decide (is_Some (fs !! configFilePath))
              then [configFileWarning configFilePath candidates url]
              else []).
Proof. apply checkPluginIsMissing_cases. Qed.

(** X13. The bundle hook of the validator: with a WebpackPlugin tap there
    is no warning, whatever the files and the configuration; without one,
    the warnings are the one for an existing webpack.config.js of the build
    folder, then the one for a Webpack configuration that a plugin
    generated, each present or absent independently of the other. *)
Theorem bundleRun_warnings buildFolder taps webpackConfiguration fs :
  (js "WebpackPlugin" ∈ taps →
   bundleRun buildFolder taps webpackConfiguration fs = []) ∧
  (js "WebpackPlugin" ∉ taps →
   bundleRun buildFolder taps webpackConfiguration fs =
     (if decide (is_Some
                   (fs !! convertToSlashes (buildFolder ++ js "/webpack.config.js")))
      then [configFileWarning
              (convertToSlashes (buildFolder ++ js "/webpack.config.js"))
              webpackCandidates webpackDocumentationUrl]
      else [])
     ++ (if webpackConfiguration then [generatedWebpackWarning] else [])).
Proof.
  unfold bundleRun.
  pose proof (checkPluginIsMissing_cases (js "WebpackPlugin")
    (convertToSlashes (buildFolder ++ js "/webpack.config.js"))
    webpackCandidates webpackDocumentationUrl taps fs) as Hcheck.
  cbn zeta in Hcheck. destruct (_checkPluginIsMissingAsync _ _ _ _ _ _)
    as [missingPlugin warnings].
  cbn [fst snd] in Hcheck. destruct Hcheck as (Hresult & Htapped & Hmissing).
  split.
  - intros Hin. rewrite (Htapped Hin). by rewrite (proj2 Hresult Hin).
  - intros Hnot. rewrite (Hmissing Hnot).
    destruct missingPlugin; [|by destruct Hnot; apply Hresult].
    destruct webpackConfiguration; [done|by rewrite app_nil_r].
Qed.

End validator_messages.

(** ** The minifier's digits *)

Section minifier.
Import MinifierConstants.

(** X14. The digits of mangled identifiers: the 54 leading digits are
    pairwise different and each may start an identifier; the 64 trailing
    digits are pairwise different; and the trailing digits are the leading
    digits, in the same order, with the ten decimal digits put in
    between. *)
Theorem identifier_digits_alphabets :
  length IDENTIFIER_LEADING_DIGITS = 54 ∧
  length IDENTIFIER_TRAILING_DIGITS = 64 ∧
  NoDup IDENTIFIER_LEADING_DIGITS ∧
  NoDup IDENTIFIER_TRAILING_DIGITS ∧
  Forall (λ c, is_identifier_start c = true) IDENTIFIER_LEADING_DIGITS ∧
  filter (λ c, is_decimal c = false) IDENTIFIER_TRAILING_DIGITS
    = IDENTIFIER_LEADING_DIGITS ∧
  length (filter (λ c, is_decimal c = true) IDENTIFIER_TRAILING_DIGITS) = 10.
Proof.
  split_and!; try (vm_compute; reflexivity).
  - apply (bool_decide_unpack (NoDup IDENTIFIER_LEADING_DIGITS)).
    vm_compute. exact I.
  - apply (bool_decide_unpack (NoDup IDENTIFIER_TRAILING_DIGITS)).
    vm_compute. exact I.
  - apply Forall_forall. intros c Hc. vm_compute in Hc.
    elem_cases Hc; reflexivity.
Qed.

End minifier.

Lemma saveAsync_then_restore_error_log_witness :
  files
    (OperationMetadataManager.tryRestoreAsync (H := RoundTripDemo.externals)
       Demo.manager (js "/repo/next/error.log")
       (OperationMetadataManager.saveAsync (H := RoundTripDemo.externals)
          Demo.manager Demo.metadata RoundTripDemo.afterFailedBuild).2).2
    !! js "/repo/next/error.log"
  = Some (File (js "boom")).
Proof.
  destruct (saveAsync_then_restore_error_log (H := RoundTripDemo.externals)
              Demo.options Demo.metadata RoundTripDemo.afterFailedBuild
              (js "boom")) as (w' & Hsave & Hrestore).
  - intros p Hp. rewrite elem_of_app in Hp. destruct Hp as [Hp|Hp];
      elem_cases Hp; vm_compute; reflexivity.
  - intros p Hp Hin. elem_cases Hp; vm_compute in Hin; elem_cases Hin.
  - vm_compute. reflexivity.
  - change (OperationMetadataManager.new Demo.options) with Demo.manager in *.
    rewrite Hsave. cbn [snd]. apply Hrestore.
    vm_compute in Hsave. injection Hsave as <-. vm_compute. reflexivity.
Defined.

Lemma scanHeftDataFolder_warning_lists_items_witness :
  (ProjectValidatorPlugin._scanHeftDataFolderAsync (js "build-cache")
     (js ".heft") (js "config") (js "/repo/app/.heft") PluginDemo.fs).2
  = [ProjectValidatorPlugin.warningMessage (js ".heft") (js "config")
       [[dquote] ++ js "typescript.json" ++ [dquote]]].
Proof.
  apply (scanHeftDataFolder_warning_lists_items (js "build-cache") (js ".heft")
           (js "config") (js "/repo/app/.heft") PluginDemo.fs
           [ {| name := js "build-cache"; isDirectory := true |};
             {| name := js "typescript.json"; isDirectory := false |} ]).
  vm_compute. reflexivity.
Defined.

(** ** The pnpm-sync tap's lazy import *)

Section pnpm_sync_import.
Import PnpmSyncCopyOperationPlugin.

(** X15. The [afterExecuteOperation] tap imports the package extractor
    exactly when it goes on to copy: never for a skipped, cached or no-op
    operation, for an operation without a project, or when the project has
    no .pnpm-sync.json; and it asks the file system at most once, and only
    about the file that it then hands to the copy. *)
Theorem afterExecuteOperation_imports_lazily record fs :
  let effects := afterExecuteOperation record fs in
  (ImportPackageExtractor ∈ effects ↔ ∃ path, PnpmSyncCopyAsync path ∈ effects) ∧
  (∀ path, PnpmSyncCopyAsync path ∈ effects → FileSystem_exists path ∈ effects) ∧
  length (filter (λ effect, isQuery effect = true) effects) ≤ 1.
Proof.
  assert (∀ effects : list Effect, effects = [] →
            (ImportPackageExtractor ∈ effects
               ↔ ∃ path, PnpmSyncCopyAsync path ∈ effects) ∧
            (∀ path, PnpmSyncCopyAsync path ∈ effects
               → FileSystem_exists path ∈ effects) ∧
            length (filter (λ effect, isQuery effect = true) effects) ≤ 1)
    as Hnothing.
  { intros ? ->. split_and!; [|intros ? Hin; elem_cases Hin|cbn; lia].
    split; [intros Hin|intros [? Hin]]; elem_cases Hin. }
  unfold afterExecuteOperation. destruct (_ || _ || _); [by apply Hnothing|].
  destruct (associatedProject record) as [projectFolder|]; [|by apply Hnothing].
  destruct (FileSystem.exists_ _ fs); cbn zeta.
  - split_and!.
    + split; [intros _; eexists|intros _]; in_list.
    + intros path Hin. elem_cases Hin. simplify_eq. in_list.
    + vm_compute. lia.
  - split_and!.
    + split; [intros Hin|intros [? Hin]]; elem_cases Hin.
    + intros path Hin. elem_cases Hin.
    + vm_compute. lia.
Qed.

End pnpm_sync_import.

Example bundleRun_generated_configuration :
  ProjectValidatorPlugin.bundleRun (js "C:\repo\app") [js "ProjectValidatorPlugin"]
    true PluginDemo.fs
  = [ProjectValidatorPlugin.generatedWebpackWarning].
Proof. vm_compute. reflexivity. Qed.
